(** * Pikax utilities: the resilient request loop and the progress printer

    A shallow embedding of [pikax/util.py]: [log], [req] and the [Printer]
    class ([print_progress], [print_done]).

    Python objects are modelled as follows.
    - [int] is [Z]; [float] is the kernel's binary64 [float], whose
      operations round as CPython's do.
    - [None]-able attributes are [option]s.
    - The modules [texts], [settings] and [exceptions] are imported by
      [util.py] but are not part of the sources: message templates are kept
      symbolic (one constructor per template, holding the [format]
      arguments) and the settings are a record the definitions take as a
      parameter.
    - Output, network calls, sleeps and clock reads are explicit: [req]
      returns the list of events it performed, the printer threads a
      [World] holding the clock and what was printed.
    - [req] is given twice: [req] for the runs in which every log call
      returns, and [req_io] with log calls that may raise, which ends such
      a run at the first that does. *)

From Stdlib Require Import ZArith List String Ascii Bool Lia Floats.
Import ListNotations.

Open Scope string_scope.
Open Scope list_scope.
Open Scope Z_scope.

(* ================================================================= *)
(** ** Message templates ([texts]) *)

(** [params] of a request: [None] or a mapping given as pairs. *)
Definition Params := option (list (string * string)).

Inductive Text : Type :=
| REQUEST_INFO (req_type url : string) (params : Params)
| STATUS_CODE (status_code : Z)
| REQUEST_FALSEY (retries : Z)
| REQUEST_INVALID_STATUS_CODE (status_code retries : Z)
| REQUEST_TIME_OUT (retries : Z)
| REQUEST_REASON (e : string)
| REQUEST_EXCEPTION (retries : Z)
| REQUEST_MSG (msg : string)
| REQUEST_EXCEPTION_MSG (req_type url : string) (params : Params)
| PROGRESS_WITH_TIME_LEFT (curr total curr_percent : Z) (time_left : option float)
| PROGRESS_TEXT (curr total curr_percent : Z)
| WITH_MSG (progress_text : Text) (msg : string)
| DONE_MSG (msg : string)
| DONE
| DONE_TIME_TAKEN (time_taken : float).

(* ================================================================= *)
(** ** Settings ([settings]) *)

Record Settings : Type := {
  LOG_STD : bool;
  LOG_INFORM : bool;
  LOG_SAVE : bool;
  LOG_WARN : bool;
  LOG_NORMAL : bool;
  LOG_FILE : string;
  CLEAR_LINE : string;
  (** [None], or a value [float(...)] accepts, given as that float. *)
  DELAY_PER_REQUEST : option float;
  REQUEST_RETRY_DELAY : option float
}.

(* ================================================================= *)
(** ** [log] *)

Inductive Sink : Type := Stdout | File (path : string).

(** One call of [print]: [print(start, prefix?, objects, end=end, file=sink)]. *)
Record Print : Type := {
  pr_sink : Sink;
  pr_start : string;
  pr_prefix : option string;
  pr_objects : Text;
  pr_end : string
}.

(** The keyword arguments of [log] that its callers set. *)
Record LogKw : Type := {
  kw_end : string;
  kw_start : string;
  inform : bool;
  save : bool;
  error : bool;
  warn : bool;
  normal : bool
}.

Definition newline : string := String (ascii_of_nat 10) EmptyString.

Definition kw : LogKw :=
  {| kw_end := newline; kw_start := EmptyString; inform := false; save := false;
     error := false; warn := false; normal := false |}.

Definition kw_with_end (e : string) (k : LogKw) : LogKw :=
  {| kw_end := e; kw_start := kw_start k; inform := inform k; save := save k;
     error := error k; warn := warn k; normal := normal k |}.
Definition kw_with_start (s : string) (k : LogKw) : LogKw :=
  {| kw_end := kw_end k; kw_start := s; inform := inform k; save := save k;
     error := error k; warn := warn k; normal := normal k |}.
Definition kw_inform (k : LogKw) : LogKw :=
  {| kw_end := kw_end k; kw_start := kw_start k; inform := true; save := save k;
     error := error k; warn := warn k; normal := normal k |}.
Definition kw_save (k : LogKw) : LogKw :=
  {| kw_end := kw_end k; kw_start := kw_start k; inform := inform k; save := true;
     error := error k; warn := warn k; normal := normal k |}.
Definition kw_normal (k : LogKw) : LogKw :=
  {| kw_end := kw_end k; kw_start := kw_start k; inform := inform k; save := save k;
     error := error k; warn := warn k; normal := true |}.

Definition when {A : Type} (b : bool) (l : list A) : list A :=
  if b then l else [].

(** [log(objects, end, start, inform, save, error, warn, normal)]: the
    [print] calls it makes, in order, when each of them returns (a [print]
    call or the [open] of the log file that raises ends [log] there:
    [print_each] below).  The module globals [_std_enabled], ... are the
    settings [LOG_STD], ... they are initialised from. *)
Definition log (s : Settings) (objects : Text) (k : LogKw) : list Print :=
  let out sink prefix :=
    {| pr_sink := sink; pr_start := kw_start k; pr_prefix := prefix;
       pr_objects := objects; pr_end := kw_end k |} in
  if LOG_NORMAL s && normal k then [out Stdout None]
  else
    when (LOG_INFORM s && inform k) [out Stdout (Some ">>>")]
    ++ when (LOG_SAVE s && save k) [out (File (LOG_FILE s)) None]
    ++ when (LOG_INFORM s && error k) [out Stdout (Some "!!!")]
    ++ when (LOG_WARN s && warn k) [out Stdout (Some "###")]
    ++ when (LOG_STD s && negb (inform k || save k || error k || warn k))
         [out Stdout None].

(* ================================================================= *)
(** ** [req] *)

(** A [requests.Response]: its truth value ([bool(res)]), its status code
    and its body. *)
Record Response : Type := {
  truthy : bool;
  status_code : Z;
  content : string
}.

(** What one call of [handler.get] / [handler.post] does: it returns a
    response or raises [requests.exceptions.Timeout] or another
    [requests.exceptions.RequestException], the two exceptions [req]
    catches. *)
Inductive Attempt : Type :=
| Returned (res : Response)
| RaisedTimeout (e : string)
| RaisedRequestException (e : string).

(** The keyword arguments [req] passes to the requester. *)
Record Call : Type := {
  call_url : string;
  call_headers : list (string * string);
  call_params : Params;
  call_timeout : Z;
  call_data : option string;
  call_proxies : option (list (string * string));
  call_verify : bool
}.

(** [requests] or a [requests.Session]: the outcome of its [n]-th call (from
    0) within the [req] under study, for each of the two verbs. *)
Record Handler : Type := {
  get : Call -> nat -> Attempt;
  post : Call -> nat -> Attempt
}.

Inductive Verb : Type := GET | POST.

Inductive Delay : Type := PerRequest | RetryDelay.

Inductive Event : Type :=
| Printed (p : Print)
| Requested (v : Verb) (c : Call)
| Slept (which : Delay) (seconds : float).

Inductive Outcome : Type :=
| Return (res : Response)
| RaiseReqException (msg : Text).

(** [str.upper] on ASCII letters. *)
Definition upper_ascii (c : ascii) : ascii :=
  let n := nat_of_ascii c in
  if ((97 <=? n) && (n <=? 122))%nat then ascii_of_nat (n - 32) else c.

Fixpoint upper (s : string) : string :=
  match s with
  | EmptyString => EmptyString
  | String c s' => String (upper_ascii c) (upper s')
  end.

(** The arguments of [req]. *)
Record ReqArgs : Type := {
  url : string;
  req_type : string;
  session : option Handler;
  params : Params;
  data : option string;
  headers : list (string * string);
  timeout : Z;
  err_msg : option string;
  log_req : bool;
  retries : Z;
  proxies : option (list (string * string));
  verify : bool
}.

(** Truth value of an optional string: [None] and the empty string are false. *)
Definition nonempty (m : option string) : bool :=
  match m with
  | Some (String _ _) => true
  | _ => false
  end.

Definition string_of (m : option string) : string :=
  match m with Some s => s | None => EmptyString end.

(** [req] as long as no log call raises. *)
Section Req.

Variable settings : Settings.
(** The module [requests], used when no session is given. *)
Variable requests : Handler.
Variable a : ReqArgs.

Definition req_TYPE : string := upper (req_type a).

Definition handler : Handler :=
  match session a with None => requests | Some s => s end.

Definition verb : Verb := if String.eqb "GET" req_TYPE then GET else POST.

Definition requester : Call -> nat -> Attempt :=
  match verb with GET => get handler | POST => post handler end.

Definition the_call : Call :=
  {| call_url := url a; call_headers := headers a; call_params := params a;
     call_timeout := timeout a; call_data := data a;
     call_proxies := proxies a; call_verify := verify a |}.

Definition logged (t : Text) (k : LogKw) : list Event :=
  when (log_req a) (map Printed (log settings t k)).

Definition sleep (which : Delay) (d : option float) : list Event :=
  match d with
  | Some seconds => [Slept which seconds]
  | None => []
  end.

(** The body of the [while] loop up to [curr_retries += 1], for the [n]-th
    call: the events performed, and [Some res] when the body returns [res]. *)
Definition attempt (n : nat) : list Event * option Response :=
  let before :=
    logged (REQUEST_INFO req_TYPE (url a) (params a)) (kw_with_end EmptyString kw)
    ++ [Requested verb the_call] in
  match requester the_call n with
  | Returned res =>
      let before := before ++ logged (STATUS_CODE (status_code res)) kw in
      if negb (truthy res) then
        (before ++ logged (REQUEST_FALSEY (retries a)) (kw_save kw), None)
      else if status_code res >=? 400 then
        (before ++ logged (REQUEST_INVALID_STATUS_CODE (status_code res) (retries a))
                     (kw_save kw), None)
      else
        (before ++ sleep PerRequest (DELAY_PER_REQUEST settings), Some res)
  | RaisedTimeout e =>
      (before
       ++ logged (REQUEST_TIME_OUT (retries a)) (kw_save kw)
       ++ logged (REQUEST_REASON e) (kw_inform (kw_save kw)), None)
  | RaisedRequestException e =>
      (before
       ++ logged (REQUEST_EXCEPTION (retries a)) (kw_inform (kw_save kw))
       ++ logged (REQUEST_REASON e) (kw_inform (kw_save kw))
       ++ when (nonempty (err_msg a))
            (logged (REQUEST_MSG (string_of (err_msg a))) (kw_inform kw)), None)
  end.

(** [while curr_retries < retries: ...] followed by the final [raise]; [n]
    counts the calls made so far.  [None] only when [fuel] runs out. *)
Fixpoint req_loop (fuel : nat) (curr_retries : Z) (n : nat)
  : option (list Event * Outcome) :=
  match fuel with
  | O => None
  | S fuel' =>
      if curr_retries <? retries a then
        match attempt n with
        | (evs, Some res) => Some (evs, Return res)
        | (evs, None) =>
            match req_loop fuel' (curr_retries + 1) (S n) with
            | Some (rest, out) =>
                Some (evs ++ sleep RetryDelay (REQUEST_RETRY_DELAY settings) ++ rest, out)
            | None => None
            end
        end
      else
        Some ([], RaiseReqException
                    (REQUEST_EXCEPTION_MSG req_TYPE (url a) (params a)))
  end.

Definition req : option (list Event * Outcome) :=
  req_loop (S (Z.to_nat (retries a))) 0 0.

End Req.

(** Observations on the events of a run. *)
Definition is_request (e : Event) : bool :=
  match e with Requested _ _ => true | _ => false end.

Definition is_retry_sleep (e : Event) : bool :=
  match e with Slept RetryDelay _ => true | _ => false end.

Definition is_print (e : Event) : bool :=
  match e with Printed _ => true | _ => false end.

Definition attempts (evs : list Event) : nat :=
  List.length (filter is_request evs).

Definition retry_sleeps (evs : list Event) : nat :=
  List.length (filter is_retry_sleep evs).

(** The events other than log output. *)
Definition effects (evs : list Event) : list Event :=
  filter (fun e => negb (is_print e)) evs.

(** An attempt the loop retries: a falsy response, a status of 400 or more,
    a timeout or another request exception. *)
Definition transient (r : Attempt) : bool :=
  match r with
  | Returned res => negb (truthy res) || (status_code res >=? 400)
  | RaisedTimeout _ | RaisedRequestException _ => true
  end.

Definition with_retries (n : Z) (a : ReqArgs) : ReqArgs :=
  {| url := url a; req_type := req_type a; session := session a;
     params := params a; data := data a; headers := headers a;
     timeout := timeout a; err_msg := err_msg a; log_req := log_req a;
     retries := n; proxies := proxies a; verify := verify a |}.

Definition with_log_req (b : bool) (a : ReqArgs) : ReqArgs :=
  {| url := url a; req_type := req_type a; session := session a;
     params := params a; data := data a; headers := headers a;
     timeout := timeout a; err_msg := err_msg a; log_req := b;
     retries := retries a; proxies := proxies a; verify := verify a |}.

(* ================================================================= *)
(** ** [req] when a log call raises *)

(** [log] prints with [print] and, for [save=True], opens
    [settings.LOG_FILE] for appending.  Both can raise (a log file that
    cannot be opened, a closed stream), and [log] catches nothing.  In [req]
    the first log call stands before the [try] and the others under
    handlers for the exceptions of [requests] only, so an exception of a log
    call leaves [req].  Below, [fails done p] tells whether the print call
    [p] raises when it is made after the events [done], and the definitions
    of [req] are given again with every log call able to end the run. *)

(** A piece of [req], started after the events [done]: the events done when
    it ends, and its value, or the print call whose exception ended it. *)
Definition IO (A : Type) : Type :=
  list Event -> list Event * (Print + A).

Definition io_ret {A : Type} (x : A) : IO A := fun done => (done, inr x).

Definition io_bind {A B : Type} (c : IO A) (k : A -> IO B) : IO B :=
  fun done =>
    match c done with
    | (done', inl p) => (done', inl p)
    | (done', inr x) => k x done'
    end.

(** Calls and sleeps: they do not raise here. *)
Definition perform (evs : list Event) : IO unit :=
  fun done => (done ++ evs, inr tt).

Declare Scope io_scope.
Delimit Scope io_scope with io.
Notation "c ;; k" := (io_bind c (fun _ => k))
  (at level 61, right associativity) : io_scope.

Section ReqIO.

Variable fails : list Event -> Print -> bool.
Variable settings : Settings.
Variable requests : Handler.
Variable a : ReqArgs.

Open Scope io_scope.

(** One [print] call of [log], with the [open] of the log file when it has
    one. *)
Definition print_one (p : Print) : IO unit :=
  fun done =>
    if fails done p then (done, inl p) else (done ++ [Printed p], inr tt).

(** The print calls of one [log] call, one after the other, up to the first
    that raises. *)
Fixpoint print_each (ps : list Print) : IO unit :=
  match ps with
  | [] => io_ret tt
  | p :: ps' => print_one p ;; print_each ps'
  end.

Definition log_io (t : Text) (k : LogKw) : IO unit :=
  print_each (log settings t k).

(** [if log_req: log(...)] *)
Definition logged_io (t : Text) (k : LogKw) : IO unit :=
  if log_req a then log_io t k else io_ret tt.

(** The body of the [while] loop up to [curr_retries += 1], for the [n]-th
    call. *)
Definition attempt_io (n : nat) : IO (option Response) :=
  logged_io (REQUEST_INFO (req_TYPE a) (url a) (params a))
    (kw_with_end EmptyString kw) ;;
  perform [Requested (verb a) (the_call a)] ;;
  match requester requests a (the_call a) n with
  | Returned res =>
      logged_io (STATUS_CODE (status_code res)) kw ;;
      if negb (truthy res) then
        logged_io (REQUEST_FALSEY (retries a)) (kw_save kw) ;;
        io_ret None
      else if status_code res >=? 400 then
        logged_io (REQUEST_INVALID_STATUS_CODE (status_code res) (retries a))
          (kw_save kw) ;;
        io_ret None
      else
        perform (sleep PerRequest (DELAY_PER_REQUEST settings)) ;;
        io_ret (Some res)
  | RaisedTimeout e =>
      logged_io (REQUEST_TIME_OUT (retries a)) (kw_save kw) ;;
      logged_io (REQUEST_REASON e) (kw_inform (kw_save kw)) ;;
      io_ret None
  | RaisedRequestException e =>
      logged_io (REQUEST_EXCEPTION (retries a)) (kw_inform (kw_save kw)) ;;
      logged_io (REQUEST_REASON e) (kw_inform (kw_save kw)) ;;
      (if nonempty (err_msg a)
       then logged_io (REQUEST_MSG (string_of (err_msg a))) (kw_inform kw)
       else io_ret tt) ;;
      io_ret None
  end.

(** The loop and the final [raise], started after the events [done].  The
    result is what [req] returns or the [ReqException] it raises, or the
    print call whose exception left it.  [None] only when [fuel] runs out. *)
Fixpoint req_loop_io (fuel : nat) (curr_retries : Z) (n : nat)
    (done : list Event) : option (list Event * (Print + Outcome)) :=
  match fuel with
  | O => None
  | S fuel' =>
      if curr_retries <? retries a then
        match attempt_io n done with
        | (done', inl p) => Some (done', inl p)
        | (done', inr (Some res)) => Some (done', inr (Return res))
        | (done', inr None) =>
            req_loop_io fuel' (curr_retries + 1) (S n)
              (done' ++ sleep RetryDelay (REQUEST_RETRY_DELAY settings))
        end
      else
        Some (done, inr (RaiseReqException
                           (REQUEST_EXCEPTION_MSG (req_TYPE a) (url a) (params a))))
  end.

Definition req_io : option (list Event * (Print + Outcome)) :=
  req_loop_io (S (Z.to_nat (retries a))) 0 0 [].

(** The events [evs] run in order after [done] until a print call raises:
    what has been done then, and the print call that raised, if one did. *)
Fixpoint cut (evs done : list Event) : list Event * option Print :=
  match evs with
  | [] => (done, None)
  | Printed p :: evs' =>
      if fails done p then (done, Some p) else cut evs' (done ++ [Printed p])
  | e :: evs' => cut evs' (done ++ [e])
  end.

Definition ran {A : Type} (evs : list Event) (x : A) : IO A :=
  fun done =>
    match cut evs done with
    | (done', Some p) => (done', inl p)
    | (done', None) => (done', inr x)
    end.

End ReqIO.

(* ================================================================= *)
(** ** Python numbers *)

Inductive PyError : Type :=
| ZeroDivisionError
| TypeError
| OverflowError
| ValueError.

(** [float(z)] for an [int] [z]: the nearest binary64 value. *)
Definition float_of_int (z : Z) : float :=
  SF2Prim (binary_normalize prec emax z 0 false).

(** The integer nearest to [n / d], ties to the even one ([d > 0]). *)
Definition round_half_even (n d : Z) : Z :=
  let q := n / d in
  match 2 * (n mod d) ?= d with
  | Lt => q
  | Gt => q + 1
  | Eq => if Z.even q then q else q + 1
  end.

(** A float to an [int], [rnd n d] deciding how the quotient [n / d] of a
    fractional value is rounded; infinities and NaN raise as in CPython. *)
Definition to_int (rnd : Z -> Z -> Z) (x : float) : PyError + Z :=
  match Prim2SF x with
  | S754_zero _ => inr 0
  | S754_finite s m e =>
      let n := if s then Z.neg m else Z.pos m in
      inr (if 0 <=? e then n * 2 ^ e else rnd n (2 ^ (- e)))
  | S754_infinity _ => inl OverflowError
  | S754_nan => inl ValueError
  end.

(** [math.floor(x)] *)
Definition math_floor (x : float) : PyError + Z := to_int Z.div x.

(** [round(x)] *)
Definition py_round (x : float) : PyError + Z := to_int round_half_even x.

(** [x / d] for a float [x] and an [int] [d]. *)
Definition truediv (x : float) (d : Z) : PyError + float :=
  if d =? 0 then inl ZeroDivisionError else inr (x / float_of_int d)%float.

(** [a / b] for two [int]s (both conversions are exact up to [2^53]). *)
Definition int_truediv (a b : Z) : PyError + float :=
  truediv (float_of_int a) b.

(** [math.floor(curr / total * 100)] *)
Definition percent_done (curr total : Z) : PyError + Z :=
  match int_truediv curr total with
  | inr q => math_floor (q * float_of_int 100)%float
  | inl e => inl e
  end.

(** [round(percent_left / percent_diff)] *)
Definition rounded_ratio (percent_left percent_diff : Z) : PyError + Z :=
  match int_truediv percent_left percent_diff with
  | inr r => py_round r
  | inl e => inl e
  end.

(** [sum(l)]: the elements added from the left, starting from 0 (plain
    float addition, as CPython does before 3.12). *)
Definition sum (l : list float) : float :=
  fold_left PrimFloat.add l 0%float.

(** [len(l)] *)
Definition len {A : Type} (l : list A) : Z := Z.of_nat (List.length l).

(** The slice [l[start:]]: a negative [start] counts from the end. *)
Definition slice_from {A : Type} (start : Z) (l : list A) : list A :=
  if start <? 0 then skipn (Z.to_nat (Z.max (len l + start) 0)) l
  else skipn (Z.to_nat start) l.

(** [x != 0.0] for [x] a float or [None]. *)
Definition ne_zero (x : option float) : bool :=
  match x with
  | Some f => negb (f =? 0)%float
  | None => true
  end.

(* ================================================================= *)
(** ** [Printer] *)

Record Printer : Type := {
  is_first_print : bool;
  last_percent : option Z;
  last_percent_time_left : option float;
  last_percent_print_time : option float;
  (** The initial [int] zeros are kept as [0.0], the value they take in
      every operation of this class. *)
  est_time_lefts : list float;
  start_time : option float;
  last_printed_line : option Text
}.

(** [Printer()] *)
Definition init : Printer :=
  {| is_first_print := true;
     last_percent := None;
     last_percent_time_left := None;
     last_percent_print_time := None;
     est_time_lefts := [0; 0; 0; 0; 0]%float;
     start_time := None;
     last_printed_line := None |}.

Definition set_is_first_print (v : bool) (p : Printer) : Printer :=
  {| is_first_print := v; last_percent := last_percent p;
     last_percent_time_left := last_percent_time_left p;
     last_percent_print_time := last_percent_print_time p;
     est_time_lefts := est_time_lefts p; start_time := start_time p;
     last_printed_line := last_printed_line p |}.
Definition set_last_percent (v : option Z) (p : Printer) : Printer :=
  {| is_first_print := is_first_print p; last_percent := v;
     last_percent_time_left := last_percent_time_left p;
     last_percent_print_time := last_percent_print_time p;
     est_time_lefts := est_time_lefts p; start_time := start_time p;
     last_printed_line := last_printed_line p |}.
Definition set_last_percent_time_left (v : option float) (p : Printer) : Printer :=
  {| is_first_print := is_first_print p; last_percent := last_percent p;
     last_percent_time_left := v;
     last_percent_print_time := last_percent_print_time p;
     est_time_lefts := est_time_lefts p; start_time := start_time p;
     last_printed_line := last_printed_line p |}.
Definition set_last_percent_print_time (v : option float) (p : Printer) : Printer :=
  {| is_first_print := is_first_print p; last_percent := last_percent p;
     last_percent_time_left := last_percent_time_left p;
     last_percent_print_time := v;
     est_time_lefts := est_time_lefts p; start_time := start_time p;
     last_printed_line := last_printed_line p |}.
Definition set_est_time_lefts (v : list float) (p : Printer) : Printer :=
  {| is_first_print := is_first_print p; last_percent := last_percent p;
     last_percent_time_left := last_percent_time_left p;
     last_percent_print_time := last_percent_print_time p;
     est_time_lefts := v; start_time := start_time p;
     last_printed_line := last_printed_line p |}.
Definition set_start_time (v : option float) (p : Printer) : Printer :=
  {| is_first_print := is_first_print p; last_percent := last_percent p;
     last_percent_time_left := last_percent_time_left p;
     last_percent_print_time := last_percent_print_time p;
     est_time_lefts := est_time_lefts p; start_time := v;
     last_printed_line := last_printed_line p |}.
Definition set_last_printed_line (v : option Text) (p : Printer) : Printer :=
  {| is_first_print := is_first_print p; last_percent := last_percent p;
     last_percent_time_left := last_percent_time_left p;
     last_percent_print_time := last_percent_print_time p;
     est_time_lefts := est_time_lefts p; start_time := start_time p;
     last_printed_line := v |}.

(** What the printer acts on besides itself: the clock ([clock n] is what the
    [n]-th call of [time.time()] returns) and the output so far. *)
Record World : Type := {
  clock : nat -> float;
  reads : nat;
  printed : list Print
}.

(** A method of [Printer]: it updates the object and the world, and returns
    or raises.  The state is kept as it stands when an exception is raised. *)
Definition M (A : Type) : Type :=
  Printer * World -> (Printer * World) * (PyError + A).

Definition ret {A : Type} (x : A) : M A := fun st => (st, inr x).

Definition raise {A : Type} (e : PyError) : M A := fun st => (st, inl e).

Definition bind {A B : Type} (c : M A) (k : A -> M B) : M B :=
  fun st =>
    match c st with
    | (st', inr x) => k x st'
    | (st', inl e) => (st', inl e)
    end.

Definition lift {A : Type} (r : PyError + A) : M A := fun st => (st, r).

Declare Scope py_scope.
Delimit Scope py_scope with py.
Notation "x <- c ;; k" := (bind c (fun x => k))
  (at level 61, c at next level, right associativity) : py_scope.
Notation "c ;; k" := (bind c (fun _ => k))
  (at level 61, right associativity) : py_scope.

(** [self] *)
Definition self : M Printer := fun st => (st, inr (fst st)).

(** [self.attr = v], through the setter of [attr]. *)
Definition assign (set : Printer -> Printer) : M unit :=
  fun st => ((set (fst st), snd st), inr tt).

(** [time.time()] *)
Definition time_time : M float :=
  fun st =>
    let w := snd st in
    ((fst st, {| clock := clock w; reads := S (reads w); printed := printed w |}),
     inr (clock w (reads w))).

Definition print_all (l : list Print) : M unit :=
  fun st =>
    let w := snd st in
    ((fst st, {| clock := clock w; reads := reads w; printed := printed w ++ l |}),
     inr tt).

(** [x - y] for a float [x] and an attribute that may be [None]. *)
Definition sub_attr (x : float) (y : option float) : M float :=
  match y with
  | Some f => ret (x - f)%float
  | None => raise TypeError
  end.

(** [x - y] for an [int] [x] and an attribute that may be [None]. *)
Definition int_sub_attr (x : Z) (y : option Z) : M Z :=
  match y with
  | Some z => ret (x - z)
  | None => raise TypeError
  end.

(** [y == x] for an attribute [y] and an [int] [x]. *)
Definition attr_eq (y : option Z) (x : Z) : bool :=
  match y with
  | Some z => z =? x
  | None => false
  end.

(** The text [print_progress] builds: with the time left unless the
    estimate equals [0.0], then [' | ' + str(msg)] for a true [msg]. *)
Definition progress_line (curr total curr_percent : Z)
    (est_time_left : option float) (msg : option string) : Text :=
  let progress_text :=
    if ne_zero est_time_left
    then PROGRESS_WITH_TIME_LEFT curr total curr_percent est_time_left
    else PROGRESS_TEXT curr total curr_percent in
  if nonempty msg then WITH_MSG progress_text (string_of msg)
  else progress_text.

Section PrinterMethods.

Variable settings : Settings.

Open Scope py_scope.

Definition print_progress (curr total : Z) (msg : option string) : M unit :=
  curr_percent <- lift (percent_done curr total) ;;
  curr_time <- time_time ;;
  this <- self ;;
  est_time_left <-
    (if is_first_print this then
       let est_time_left := Some infinity in
       assign (set_is_first_print false) ;;
       assign (set_last_percent_time_left est_time_left) ;;
       assign (set_last_percent_print_time (Some curr_time)) ;;
       now <- time_time ;;
       assign (set_start_time (Some now)) ;;
       ret est_time_left
     else if attr_eq (last_percent this) curr_percent then
       ret (last_percent_time_left this)
     else
       elapsed <- sub_attr curr_time (last_percent_print_time this) ;;
       diff <- int_sub_attr curr_percent (last_percent this) ;;
       per_percent <- lift (truediv elapsed diff) ;;
       let bad_est_time_left := (per_percent * float_of_int (100 - curr_percent))%float in
       assign (fun p => set_est_time_lefts (est_time_lefts p ++ [bad_est_time_left]) p) ;;
       assign (fun p => set_est_time_lefts (slice_from 1 (est_time_lefts p)) p) ;;
       let percent_left := 100 - curr_percent in
       percent_diff <- int_sub_attr curr_percent (last_percent this) ;;
       chunk_left <- lift (rounded_ratio percent_left percent_diff) ;;
       this <- self ;;
       est_time_left <-
         (if chunk_left <? len (est_time_lefts this) then
            if negb (chunk_left =? 0) then
              lift (truediv (sum (slice_from (- chunk_left) (est_time_lefts this)))
                      chunk_left)
            else ret 0%float
          else
            lift (truediv (sum (est_time_lefts this)) (len (est_time_lefts this)))) ;;
       assign (set_last_percent_time_left (Some est_time_left)) ;;
       assign (set_last_percent_print_time (Some curr_time)) ;;
       ret (Some est_time_left)) ;;
  assign (set_last_percent (Some curr_percent)) ;;
  let progress_text := progress_line curr total curr_percent est_time_left msg in
  print_all (log settings progress_text
               (kw_inform (kw_with_start (CLEAR_LINE settings)
                             (kw_with_end EmptyString kw)))) ;;
  assign (set_last_printed_line (Some progress_text)).

Definition print_done (msg : option string) : M unit :=
  this <- self ;;
  (if nonempty msg then
     print_all (log settings (DONE_MSG (string_of msg)) (kw_normal kw))
   else if is_first_print this then
     print_all (log settings DONE (kw_normal kw))
   else
     now <- time_time ;;
     time_taken <- sub_attr now (start_time this) ;;
     print_all (log settings (DONE_TIME_TAKEN time_taken) (kw_normal kw))) ;;
  assign (set_is_first_print true) ;;
  assign (set_start_time None) ;;
  assign (set_last_percent None) ;;
  assign (set_last_percent_print_time None) ;;
  assign (set_last_percent_time_left None) ;;
  assign (set_last_printed_line None) ;;
  assign (set_est_time_lefts [0; 0; 0]%float).

(** A call of one of the two methods. *)
Inductive Op : Type :=
| Progress (curr total : Z) (msg : option string)
| Done (msg : option string).

Definition call (o : Op) : M unit :=
  match o with
  | Progress curr total msg => print_progress curr total msg
  | Done msg => print_done msg
  end.

(** Calls made one after the other; an exception ends the run. *)
Fixpoint run (ops : list Op) : M unit :=
  match ops with
  | [] => ret tt
  | o :: ops' => call o ;; run ops'
  end.

(** The world after a progress line was printed, the clock read [n] times. *)
Definition after_progress (w : World) (n : nat) (line : Text) : World :=
  {| clock := clock w; reads := (n + reads w)%nat;
     printed := printed w
                ++ log settings line
                     (kw_inform (kw_with_start (CLEAR_LINE settings)
                                   (kw_with_end EmptyString kw))) |}.

(** The states a printer can be in: as constructed, or after a call of one of
    its methods, whether the call returned or raised. *)
Inductive reachable : Printer -> Prop :=
| reach_init : reachable init
| reach_call (p : Printer) (w : World) (o : Op) :
    reachable p -> reachable (fst (fst (call o (p, w)))).

End PrinterMethods.

(* ================================================================= *)
(** ** [trim_to_limit] *)

(** The slice [l[:stop]]: a negative [stop] counts from the end. *)
Definition slice_to {A : Type} (stop : Z) (l : list A) : list A :=
  if stop <? 0 then firstn (Z.to_nat (Z.max (len l + stop) 0)) l
  else firstn (Z.to_nat stop) l.

(** The two messages [trim_to_limit] hands to [log(..., inform=True)]. *)
Inductive TrimText : Type :=
| TRIM_MSG (old_len new_len : Z)
| TRIM_NOT_NEEDED (len limit : Z).

(** Truth value of a list: the empty list is false. *)
Definition nonempty_list {A : Type} (l : list A) : bool :=
  match l with [] => false | _ :: _ => true end.

(** Truth value of a limit: [None] and [0] are false. *)
Definition nonzero (limit : option Z) : bool :=
  match limit with
  | Some n => negb (n =? 0)
  | None => false
  end.

Definition int_of (limit : option Z) : Z :=
  match limit with Some n => n | None => 0 end.

(** [trim_to_limit(items, limit)] for a list and a limit that is an [int] or
    [None]: the list returned, and the message logged, if any. *)
Definition trim_to_limit {A : Type} (items : list A) (limit : option Z)
  : list A * option TrimText :=
  if nonempty_list items then
    if nonzero limit then
      let num_of_items := len items in
      if num_of_items =? int_of limit then (items, None)
      else if num_of_items >? int_of limit then
        (slice_to (int_of limit) items,
         Some (TRIM_MSG num_of_items (int_of limit)))
      else (items, Some (TRIM_NOT_NEEDED num_of_items (int_of limit)))
    else (items, None)
  else (items, None).

(* ================================================================= *)
(** ** [clean_filename] *)

(** The characters of the character class in the pattern, by code: colon,
    less-than, greater-than, double quote, backslash, slash, bar, question
    mark, star. *)
Definition forbidden_codes : list nat := [58; 60; 62; 34; 92; 47; 124; 63; 42]%nat.

Definition forbidden (c : ascii) : bool :=
  existsb (Nat.eqb (nat_of_ascii c)) forbidden_codes.

(** [re.sub(pattern, '', string)] for a one-character class: every matching
    character is dropped and the others are kept in order.  A string is the
    sequence of its bytes; the class is ASCII, and no byte of a multi-byte
    UTF-8 character is in it. *)
Fixpoint clean_filename (s : string) : string :=
  match s with
  | EmptyString => EmptyString
  | String c s' =>
      if forbidden c then clean_filename s' else String c (clean_filename s')
  end.

(* ================================================================= *)
(** ** Definitions used in the statements *)

(** The [k] most recent samples of a window: its last [k] elements. *)
Definition most_recent {A : Type} (k : nat) (l : list A) : list A :=
  rev (firstn k (rev l)).

(** The estimate as the specification words it, from [chunk_left] and the
    window after the new sample went in: the mean of the [chunk_left] most
    recent samples when [chunk_left] is below the window length ([0.0] when
    it is 0), the mean of the whole window otherwise. *)
Definition estimate_as_specified (chunk_left : Z) (window : list float) : float :=
  if chunk_left <? len window then
    if chunk_left =? 0 then 0%float
    else (sum (most_recent (Z.to_nat chunk_left) window) / float_of_int chunk_left)%float
  else (sum window / float_of_int (len window))%float.

(** What holds of a printer however it was used: the window is never empty,
    and once a progress line was printed the attributes the next call reads
    are set. *)
Definition ready (p : Printer) : Prop :=
  est_time_lefts p <> []
  /\ (is_first_print p = false ->
      last_percent p <> None /\ last_percent_print_time p <> None
      /\ start_time p <> None).

(** Every [print_progress] call of the sequence has a positive [total]. *)
Definition positive_totals (ops : list Op) : Prop :=
  forall curr total msg, In (Progress curr total msg) ops -> 0 < total.

(** The per-request sleeps of a run. *)
Definition is_per_request_sleep (e : Event) : bool :=
  match e with Slept PerRequest _ => true | _ => false end.

Definition per_request_sleeps (evs : list Event) : nat :=
  List.length (filter is_per_request_sleep evs).

(** [1] for a configured delay, [0] for [None]. *)
Definition configured (d : option float) : nat :=
  match d with Some _ => 1%nat | None => 0%nat end.

(** The print [log] makes on a sink with a given prefix. *)
Definition print_of (s : Sink) (prefix : option string) (t : Text) (k : LogKw) : Print :=
  {| pr_sink := s; pr_start := kw_start k; pr_prefix := prefix;
     pr_objects := t; pr_end := kw_end k |}.

Definition is_file_print (p : Print) : bool :=
  match pr_sink p with File _ => true | Stdout => false end.

(** The characters of a string. *)
Fixpoint chars (s : string) : list ascii :=
  match s with
  | EmptyString => []
  | String c s' => c :: chars s'
  end.

(** A call of [print_progress]. *)
Definition is_progress (o : Op) : bool :=
  match o with Progress _ _ _ => true | Done _ => false end.

(** A line on the standard output without prefix, ended by a newline. *)
Definition plain_line (t : Text) : Print :=
  {| pr_sink := Stdout; pr_start := EmptyString; pr_prefix := None;
     pr_objects := t; pr_end := newline |}.

(** The progress line as it goes out on the inform channel. *)
Definition inform_line (s : Settings) (t : Text) : Print :=
  {| pr_sink := Stdout; pr_start := CLEAR_LINE s; pr_prefix := Some ">>>";
     pr_objects := t; pr_end := EmptyString |}.

(** The world after [n] more clock reads and some more output. *)
Definition advance (w : World) (n : nat) (out : list Print) : World :=
  {| clock := clock w; reads := (n + reads w)%nat; printed := printed w ++ out |}.

(** The printer [print_done] leaves. *)
Definition reset_printer : Printer := set_est_time_lefts [0; 0; 0]%float init.

(** The integers [0 .. n]. *)
Definition upto (n : nat) : list Z := map Z.of_nat (seq 0 (S n)).

(** The percent computed for [curr] of [total] is the exact
    [floor(100 * curr / total)] or one below it, lies in [0 .. 100], and is
    exact at both ends. *)
Definition percent_accurate (curr total : Z) : bool :=
  match percent_done curr total with
  | inr p =>
      let exact := 100 * curr / total in
      ((p =? exact) || (p =? exact - 1)) && (0 <=? p) && (p <=? 100)
      && implb (curr =? total) (p =? 100) && implb (curr =? 0) (p =? 0)
  | inl _ => false
  end.

(** The percent does not go down from [curr] to [curr + 1]. *)
Definition percent_step (total curr : Z) : bool :=
  match percent_done curr total, percent_done (curr + 1) total with
  | inr p, inr q => p <=? q
  | _, _ => false
  end.

Definition percents_checked (n : nat) : bool :=
  forallb (fun total =>
             forallb (fun curr => percent_accurate curr total)
               (upto (Z.to_nat total))
             && forallb (percent_step total) (upto (Z.to_nat total - 1)))
    (tl (upto n)).

(** [round(0 / d)] is 0. *)
Definition zero_ratio (d : Z) : bool :=
  match rounded_ratio 0 d with
  | inr 0 => true
  | _ => false
  end.

(* ================================================================= *)
(** ** Sample inputs *)

(** Settings for the sample runs: retries are three seconds apart. *)
Definition demo_settings : Settings :=
  {| LOG_STD := true; LOG_INFORM := true; LOG_SAVE := false; LOG_WARN := true;
     LOG_NORMAL := true; LOG_FILE := "log.txt"; CLEAR_LINE := EmptyString;
     DELAY_PER_REQUEST := None; REQUEST_RETRY_DELAY := Some 3%float |}.

(** The same with two seconds between requests. *)
Definition rate_limited_settings : Settings :=
  {| LOG_STD := true; LOG_INFORM := true; LOG_SAVE := false; LOG_WARN := true;
     LOG_NORMAL := true; LOG_FILE := "log.txt"; CLEAR_LINE := EmptyString;
     DELAY_PER_REQUEST := Some 2%float; REQUEST_RETRY_DELAY := Some 3%float |}.

(** Settings that save to a log file, and a log file that cannot be opened. *)
Definition saving_settings : Settings :=
  {| LOG_STD := true; LOG_INFORM := true; LOG_SAVE := true; LOG_WARN := true;
     LOG_NORMAL := true; LOG_FILE := EmptyString; CLEAR_LINE := EmptyString;
     DELAY_PER_REQUEST := None; REQUEST_RETRY_DELAY := Some 3%float |}.

Definition cannot_open_log_file (done : list Event) (p : Print) : bool :=
  is_file_print p.

Definition response (t : bool) (code : Z) (body : string) : Response :=
  {| truthy := t; status_code := code; content := body |}.

(** A server that fails in each of the four ways, one after the other. *)
Definition failing_server : Handler :=
  let behaviour (_ : Call) (n : nat) :=
    match n with
    | 0%nat => Returned (response false 404 "not found")
    | 1%nat => Returned (response true 500 "oops")
    | 2%nat => RaisedTimeout "timed out"
    | _ => RaisedRequestException "connection reset"
    end in
  {| get := behaviour; post := behaviour |}.

(** Two bad statuses and then a good response. *)
Definition recovering_server : Handler :=
  let behaviour (_ : Call) (n : nat) :=
    match n with
    | 0%nat | 1%nat => Returned (response false 500 "oops")
    | _ => Returned (response true 200 "ok")
    end in
  {| get := behaviour; post := behaviour |}.

Definition healthy_server : Handler :=
  let behaviour (_ : Call) (n : nat) := Returned (response true 200 "ok") in
  {| get := behaviour; post := behaviour |}.

Definition demo_args (n : Z) : ReqArgs :=
  {| url := "https://www.pixiv.net/ranking.php"; req_type := "get";
     session := None; params := Some [("mode", "daily")]; data := None;
     headers := []; timeout := 10; err_msg := None; log_req := true;
     retries := n; proxies := None; verify := true |}.

(** A clock that ticks every five seconds and a world with nothing printed. *)
Definition demo_world : World :=
  {| clock := fun n => float_of_int (5 * Z.of_nat n); reads := 0; printed := [] |}.

(** The same clock, by table. *)
Definition table_world : World :=
  {| clock := fun n => nth n [0; 5; 10; 15; 20; 25; 30; 35]%float 40%float;
     reads := 0; printed := [] |}.

(** The printer and the world once [print_progress(curr, total)] has run on
    a fresh printer. *)
Definition started (curr total : Z) : Printer * World :=
  fst (print_progress demo_settings curr total None (init, demo_world)).

(* ================================================================= *)
(** ** Proof automation *)

Ltac unfold_py :=
  cbv [print_progress print_done bind ret raise lift self assign time_time
       print_all sub_attr int_sub_attr fst snd].

(** One more step of a method: the monad and the attribute accessors, with
    the arithmetic left as it stands. *)
Ltac step_py :=
  cbv [bind ret raise lift self assign time_time print_all sub_attr int_sub_attr
       fst snd attr_eq is_first_print last_percent last_percent_time_left
       last_percent_print_time est_time_lefts start_time last_printed_line
       set_is_first_print set_last_percent set_last_percent_time_left
       set_last_percent_print_time set_est_time_lefts set_start_time
       set_last_printed_line negb].

(* ================================================================= *)
(** * Properties of [req] *)

Create Rewrite HintDb events.

Section ReqFacts.

Variable settings : Settings.
Variable requests : Handler.

Lemma attempts_app (l1 l2 : list Event) :
  attempts (l1 ++ l2) = (attempts l1 + attempts l2)%nat.
Proof. unfold attempts. now rewrite filter_app, length_app. Qed.

Lemma retry_sleeps_app (l1 l2 : list Event) :
  retry_sleeps (l1 ++ l2) = (retry_sleeps l1 + retry_sleeps l2)%nat.
Proof. unfold retry_sleeps. now rewrite filter_app, length_app. Qed.

Lemma effects_app (l1 l2 : list Event) :
  effects (l1 ++ l2) = effects l1 ++ effects l2.
Proof. unfold effects. apply filter_app. Qed.

Lemma filter_printed (f : Event -> bool) (l : list Print) :
  (forall p, f (Printed p) = false) -> filter f (map Printed l) = [].
Proof.
  intros Hf. induction l as [|p l IH]; simpl; [reflexivity|].
  now rewrite Hf.
Qed.

Lemma logged_silent (f : Event -> bool) (a : ReqArgs) (t : Text) (k : LogKw) :
  (forall p, f (Printed p) = false) -> filter f (logged settings a t k) = [].
Proof.
  intros Hf. unfold logged, when.
  destruct (log_req a); [now apply filter_printed | reflexivity].
Qed.

Lemma attempts_logged a t k : attempts (logged settings a t k) = 0%nat.
Proof. unfold attempts. now rewrite logged_silent. Qed.

Lemma retry_sleeps_logged a t k : retry_sleeps (logged settings a t k) = 0%nat.
Proof. unfold retry_sleeps. now rewrite logged_silent. Qed.

Lemma effects_logged a t k : effects (logged settings a t k) = [].
Proof. unfold effects. now rewrite logged_silent. Qed.

Lemma attempts_sleep which d : attempts (sleep which d) = 0%nat.
Proof. now destruct d. Qed.

Lemma retry_sleeps_per_request d : retry_sleeps (sleep PerRequest d) = 0%nat.
Proof. now destruct d. Qed.

Lemma when_logged_silent (f : Event -> bool) a b t k :
  (forall p, f (Printed p) = false) ->
  filter f (when b (logged settings a t k)) = [].
Proof. intros Hf. destruct b; simpl; [now apply logged_silent | reflexivity]. Qed.

Lemma effects_sleep which d : effects (sleep which d) = sleep which d.
Proof. now destruct d. Qed.

Lemma effects_when_logged a b t k : effects (when b (logged settings a t k)) = [].
Proof. unfold effects. now apply when_logged_silent. Qed.

#[local] Hint Rewrite attempts_app retry_sleeps_app effects_app
  attempts_logged retry_sleeps_logged effects_logged effects_sleep
  effects_when_logged attempts_sleep retry_sleeps_per_request : events.

(** Every pass through the loop body makes exactly one network call and
    never sleeps the retry delay itself. *)
Lemma attempt_one_request a n :
  attempts (fst (attempt settings requests a n)) = 1%nat
  /\ retry_sleeps (fst (attempt settings requests a n)) = 0%nat.
Proof.
  unfold attempt.
  destruct (requester requests a (the_call a) n) as [res|e|e].
  - destruct (negb (truthy res)); [|destruct (status_code res >=? 400)];
      simpl fst; autorewrite with events; simpl; auto.
  - simpl fst; autorewrite with events; simpl; auto.
  - simpl fst. autorewrite with events.
    unfold attempts, retry_sleeps.
    rewrite !when_logged_silent by reflexivity. simpl; auto.
Qed.

(** The body goes on to the retry exactly when the call was a transient
    failure; otherwise it returns the response it got. *)
Lemma attempt_retries a n :
  transient (requester requests a (the_call a) n) = true ->
  snd (attempt settings requests a n) = None.
Proof.
  unfold attempt, transient.
  destruct (requester requests a (the_call a) n) as [res|e|e]; try reflexivity.
  destruct (negb (truthy res)); [reflexivity|].
  destruct (status_code res >=? 400); [reflexivity | discriminate].
Qed.

Lemma attempt_returns a n res :
  requester requests a (the_call a) n = Returned res ->
  truthy res = true -> status_code res < 400 ->
  attempt settings requests a n =
    (logged settings a (REQUEST_INFO (req_TYPE a) (url a) (params a))
       (kw_with_end EmptyString kw)
     ++ [Requested (verb a) (the_call a)]
     ++ logged settings a (STATUS_CODE (status_code res)) kw
     ++ sleep PerRequest (DELAY_PER_REQUEST settings),
     Some res).
Proof.
  intros Hr Ht Hs. unfold attempt. rewrite Hr, Ht. simpl negb. cbv iota.
  destruct (Z.geb_spec (status_code res) 400) as [H|H]; [lia|].
  now rewrite <- !app_assoc.
Qed.

(** The loop ends: fuel above the number of iterations left is enough. *)
Lemma req_loop_total a fuel c n :
  (Z.to_nat (retries a - c) < fuel)%nat ->
  exists r, req_loop settings requests a fuel c n = Some r.
Proof.
  revert c n. induction fuel as [|fuel IH]; intros c n Hf; [lia|].
  simpl. destruct (Z.ltb_spec c (retries a)) as [Hlt|Hge]; [|eauto].
  destruct (attempt settings requests a n) as [evs [res|]]; [eauto|].
  destruct (IH (c + 1) (S n)) as [[rest out] ->]; [lia|eauto].
Qed.

Lemma req_loop_exhausts a k :
  forall fuel c n,
    Z.to_nat (retries a - c) = k ->
    (k < fuel)%nat ->
    (forall i, (n <= i < n + k)%nat ->
               transient (requester requests a (the_call a) i) = true) ->
    exists evs,
      req_loop settings requests a fuel c n =
        Some (evs, RaiseReqException
                     (REQUEST_EXCEPTION_MSG (req_TYPE a) (url a) (params a)))
      /\ attempts evs = k.
Proof.
  induction k as [|k IH]; intros fuel c n Hk Hf Htr;
    (destruct fuel as [|fuel]; [lia|]); simpl.
  - destruct (Z.ltb_spec c (retries a)) as [Hlt|Hge]; [lia|].
    exists []; auto.
  - destruct (Z.ltb_spec c (retries a)) as [Hlt|Hge]; [|lia].
    pose proof (attempt_retries a n (Htr n ltac:(lia))) as Hnone.
    pose proof (attempt_one_request a n) as [Hone _].
    destruct (attempt settings requests a n) as [evs r]. simpl in Hnone, Hone.
    subst r.
    destruct (IH fuel (c + 1) (S n)) as (rest & -> & Hrest);
      [lia | lia | intros i Hi; apply Htr; lia |].
    eexists; split; [reflexivity|].
    autorewrite with events. lia.
Qed.

(** What a pass through the loop body does besides logging, and whether it
    returns, is the same with and without [log_req]. *)
Lemma attempt_log_req a b n :
  effects (fst (attempt settings requests (with_log_req b a) n))
  = effects (fst (attempt settings requests a n))
  /\ snd (attempt settings requests (with_log_req b a) n)
     = snd (attempt settings requests a n).
Proof.
  unfold attempt.
  change (requester requests (with_log_req b a) (the_call (with_log_req b a)) n)
    with (requester requests a (the_call a) n).
  destruct (requester requests a (the_call a) n) as [res|e|e].
  - destruct (negb (truthy res)); [|destruct (status_code res >=? 400)];
      simpl fst; simpl snd; autorewrite with events; auto.
  - simpl fst; simpl snd; autorewrite with events; auto.
  - simpl fst; simpl snd; autorewrite with events; auto.
Qed.

Lemma req_loop_log_req a b fuel c n :
  match req_loop settings requests (with_log_req b a) fuel c n,
        req_loop settings requests a fuel c n with
  | Some (evs1, out1), Some (evs2, out2) =>
      out1 = out2 /\ effects evs1 = effects evs2
  | None, None => True
  | _, _ => False
  end.
Proof.
  revert c n. induction fuel as [|fuel IH]; intros c n; simpl; [exact I|].
  change (retries (with_log_req b a)) with (retries a).
  destruct (c <? retries a); [|split; reflexivity].
  destruct (attempt_log_req a b n) as [Heff Hsnd].
  destruct (attempt settings requests (with_log_req b a) n) as [evs1 r1].
  destruct (attempt settings requests a n) as [evs2 r2].
  simpl in Heff, Hsnd. subst r2.
  destruct r1 as [res|]; [split; [reflexivity | exact Heff]|].
  specialize (IH (c + 1) (S n)).
  destruct (req_loop settings requests (with_log_req b a) fuel (c + 1) (S n))
    as [[rest1 out1]|];
    destruct (req_loop settings requests a fuel (c + 1) (S n)) as [[rest2 out2]|];
    try contradiction; [|exact I].
  destruct IH as [-> Hrest]. split; [reflexivity|].
  autorewrite with events. now rewrite Heff, Hrest.
Qed.

Lemma attempts_effects evs : attempts (effects evs) = attempts evs.
Proof.
  unfold attempts, effects.
  induction evs as [|[p|v c|w d] evs IH]; simpl; auto.
Qed.

End ReqFacts.

(** C1. With [retries = N >= 1] and every attempt a transient failure (falsy
    response, status of 400 or more, timeout, other request exception),
    [req] makes exactly [N] network calls and then raises [ReqException]
    built from the upper-cased method, the url and the params; nothing else
    reaches the caller. *)
Theorem req_exhausts_all_retries
  (settings : Settings) (requests : Handler) (a : ReqArgs) (N : Z) :
  1 <= N ->
  retries a = N ->
  (forall i, (i < Z.to_nat N)%nat ->
             transient (requester requests a (the_call a) i) = true) ->
  exists evs,
    req settings requests a =
      Some (evs, RaiseReqException
                   (REQUEST_EXCEPTION_MSG (upper (req_type a)) (url a) (params a)))
    /\ Z.of_nat (attempts evs) = N.
Proof.
  intros HN Hr Htr. unfold req.
  destruct (req_loop_exhausts settings requests a (Z.to_nat N)
              (S (Z.to_nat (retries a))) 0 0%nat) as (evs & Heq & Hn).
  - rewrite Hr. f_equal. lia.
  - lia.
  - intros i Hi. apply Htr. lia.
  - exists evs. split; [exact Heq | lia].
Qed.

(** C2 (what the code does). With [retries = 0] the loop body never runs:
    [req] makes no network call at all and raises [ReqException] at once,
    where the claim has it make one call. *)
Theorem req_zero_retries_makes_no_attempt
  (settings : Settings) (requests : Handler) (a : ReqArgs) :
  exists evs,
    req settings requests (with_retries 0 a) =
      Some (evs, RaiseReqException
                   (REQUEST_EXCEPTION_MSG (upper (req_type a)) (url a) (params a)))
    /\ attempts evs = 0%nat.
Proof. exists []. split; reflexivity. Qed.

(** C5. When the loop is entered ([retries > 0]) and the first call returns
    a truthy response with a status below 400, [req] returns that response
    after exactly one network call.  It never sleeps the retry delay.  With
    [DELAY_PER_REQUEST] set to [d] it sleeps [d] once, as the last thing it
    does; with [DELAY_PER_REQUEST] [None] it does not sleep at all.  All it
    does is: log the request line (under [log_req]), make the call, log the
    status (under [log_req]), sleep the per-request delay. *)
Theorem req_first_success_returns_at_once
  (settings : Settings) (requests : Handler) (a : ReqArgs) (res : Response) :
  0 < retries a ->
  requester requests a (the_call a) 0 = Returned res ->
  truthy res = true ->
  status_code res < 400 ->
  exists evs,
    req settings requests a = Some (evs, Return res)
    /\ attempts evs = 1%nat
    /\ retry_sleeps evs = 0%nat
    /\ per_request_sleeps evs = configured (DELAY_PER_REQUEST settings)
    /\ evs = (if log_req a
              then map Printed
                     (log settings
                        (REQUEST_INFO (upper (req_type a)) (url a) (params a))
                        (kw_with_end EmptyString kw))
              else [])
             ++ [Requested (if String.eqb "GET" (upper (req_type a))
                            then GET else POST)
                   {| call_url := url a; call_headers := headers a;
                      call_params := params a; call_timeout := timeout a;
                      call_data := data a; call_proxies := proxies a;
                      call_verify := verify a |}]
             ++ (if log_req a
                 then map Printed (log settings (STATUS_CODE (status_code res)) kw)
                 else [])
             ++ match DELAY_PER_REQUEST settings with
                | Some d => [Slept PerRequest d]
                | None => []
                end.
Proof.
  intros Hpos Hr Ht Hs. unfold req. simpl req_loop.
  destruct (Z.ltb_spec 0 (retries a)) as [_|H]; [|lia].
  pose proof (attempt_one_request settings requests a 0) as [Hone Hzero].
  rewrite (attempt_returns settings requests a 0 res Hr Ht Hs) in *.
  simpl fst in Hone, Hzero.
  eexists. split; [reflexivity|]. split; [exact Hone|]. split; [exact Hzero|].
  split; [|reflexivity].
  unfold per_request_sleeps.
  rewrite !filter_app, !logged_silent by reflexivity.
  now destruct (DELAY_PER_REQUEST settings).
Qed.

(** As long as no log call raises: for the same request and the same network
    behaviour, [req] with [log_req] set and with [log_req] cleared both end,
    with the same outcome, the same number of network calls and the same
    calls and sleeps in the same order. *)
Lemma req_log_req_same_outcome_when_log_returns
  (settings : Settings) (requests : Handler) (a : ReqArgs) :
  exists out evs_on evs_off,
    req settings requests (with_log_req true a) = Some (evs_on, out)
    /\ req settings requests (with_log_req false a) = Some (evs_off, out)
    /\ attempts evs_on = attempts evs_off
    /\ effects evs_on = effects evs_off.
Proof.
  unfold req. change (retries (with_log_req true a)) with (retries a).
  change (retries (with_log_req false a)) with (retries a).
  set (fuel := S (Z.to_nat (retries a))).
  pose proof (req_loop_log_req settings requests a true fuel 0 0%nat) as Hon.
  pose proof (req_loop_log_req settings requests a false fuel 0 0%nat) as Hoff.
  destruct (req_loop_total settings requests a fuel 0 0%nat) as [[evs out] Heq];
    [subst fuel; lia|].
  rewrite Heq in Hon, Hoff.
  destruct (req_loop settings requests (with_log_req true a) fuel 0 0)
    as [[evs1 out1]|]; [|contradiction].
  destruct (req_loop settings requests (with_log_req false a) fuel 0 0)
    as [[evs2 out2]|] eqn:Eoff; [|contradiction].
  destruct Hon as [-> Hon], Hoff as [-> Hoff].
  exists out, evs1, evs2. repeat split.
  - rewrite <- (attempts_effects evs1), <- (attempts_effects evs2).
    now rewrite Hon, Hoff.
  - now rewrite Hon, Hoff.
Qed.


Section ReqSilent.

Variable settings : Settings.
Variable requests : Handler.
Variable a : ReqArgs.

(** With [log_req] false no pass through the loop body prints. *)
Lemma logged_off t k : log_req a = false -> logged settings a t k = [].
Proof. unfold logged. now intros ->. Qed.

Lemma attempt_prints_nothing n :
  log_req a = false ->
  filter is_print (fst (attempt settings requests a n)) = [].
Proof.
  intros Hoff. unfold attempt.
  destruct (requester requests a (the_call a) n) as [res|e|e].
  - destruct (negb (truthy res)); [|destruct (status_code res >=? 400)];
      simpl fst; rewrite !logged_off by assumption; simpl;
      try reflexivity.
    now destruct (DELAY_PER_REQUEST settings).
  - simpl fst. rewrite !logged_off by assumption. reflexivity.
  - simpl fst. rewrite !logged_off by assumption.
    now destruct (nonempty (err_msg a)).
Qed.

Lemma req_loop_prints_nothing fuel :
  log_req a = false ->
  forall c n evs out,
    req_loop settings requests a fuel c n = Some (evs, out) ->
    filter is_print evs = [].
Proof.
  intros Hoff. induction fuel as [|fuel IH]; intros c n evs out; simpl;
    [discriminate|].
  destruct (c <? retries a); [|intros H; injection H as <- <-; reflexivity].
  pose proof (attempt_prints_nothing n Hoff) as Hp.
  destruct (attempt settings requests a n) as [evs0 [res|]]; simpl in Hp.
  - intros H. injection H as <- <-. exact Hp.
  - destruct (req_loop settings requests a fuel (c + 1) (S n))
      as [[rest out']|] eqn:E; [|discriminate].
    intros H. injection H as <- <-.
    rewrite !filter_app, Hp, (IH _ _ _ _ E).
    now destruct (REQUEST_RETRY_DELAY settings).
Qed.

End ReqSilent.

Section ReqIOFacts.

Variable fails : list Event -> Print -> bool.
Variable settings : Settings.
Variable requests : Handler.

Lemma cut_app l1 l2 done :
  cut fails (l1 ++ l2) done
  = match cut fails l1 done with
    | (done', Some p) => (done', Some p)
    | (done', None) => cut fails l2 done'
    end.
Proof.
  revert done. induction l1 as [|e l1 IH]; intros done; simpl; [reflexivity|].
  destruct e as [p|v c|w d]; [destruct (fails done p); [reflexivity|]| |];
    apply IH.
Qed.

Lemma cut_silent evs done :
  filter is_print evs = [] -> cut fails evs done = (done ++ evs, None).
Proof.
  revert done. induction evs as [|e evs IH]; intros done; simpl.
  - now rewrite app_nil_r.
  - destruct e as [p|v c|w d]; simpl; [discriminate| |];
      intros H; rewrite (IH _ H), <- app_assoc; reflexivity.
Qed.

Lemma cut_none evs :
  forall done done', cut fails evs done = (done', None) -> done' = done ++ evs.
Proof.
  induction evs as [|e evs IH]; simpl; intros done done' H.
  - injection H as <-. now rewrite app_nil_r.
  - destruct e as [p|v c|w d]; [destruct (fails done p); [discriminate|]| |];
      apply IH in H; rewrite H, <- app_assoc; reflexivity.
Qed.

(** The run stops at a print call that raises, with what stood before it
    done. *)
Lemma cut_raised evs :
  forall done done' p,
    cut fails evs done = (done', Some p) ->
    fails done' p = true
    /\ exists before rest,
         done' = done ++ before /\ evs = before ++ Printed p :: rest.
Proof.
  induction evs as [|e evs IH]; simpl; intros done done' p H; [discriminate|].
  destruct e as [q|v c|w d].
  - destruct (fails done q) eqn:E.
    + injection H as <- <-. split; [exact E|].
      exists [], evs. now rewrite app_nil_r.
    + apply IH in H as [Hf (before & rest & -> & ->)]. split; [exact Hf|].
      exists (Printed q :: before), rest. now rewrite <- app_assoc.
  - apply IH in H as [Hf (before & rest & -> & ->)]. split; [exact Hf|].
    exists (Requested v c :: before), rest. now rewrite <- app_assoc.
  - apply IH in H as [Hf (before & rest & -> & ->)]. split; [exact Hf|].
    exists (Slept w d :: before), rest. now rewrite <- app_assoc.
Qed.

(** Running one piece after the other is running the events of both. *)
Lemma io_bind_ran {A B : Type} (c : IO A) l1 (x : A) (k : A -> IO B) l2 (y : B) :
  (forall done, c done = ran fails l1 x done) ->
  (forall done, k x done = ran fails l2 y done) ->
  forall done, io_bind c k done = ran fails (l1 ++ l2) y done.
Proof.
  intros Hc Hk done. unfold io_bind. rewrite Hc. unfold ran. rewrite cut_app.
  destruct (cut fails l1 done) as [done' [p|]]; [reflexivity|].
  apply Hk.
Qed.

Lemma io_ret_ran {A : Type} (x : A) done : io_ret x done = ran fails [] x done.
Proof. reflexivity. Qed.

Lemma io_then_ran {B : Type} (c : IO unit) l1 (k : IO B) l2 (y : B) :
  (forall done, c done = ran fails l1 tt done) ->
  (forall done, k done = ran fails l2 y done) ->
  forall done, io_bind c (fun _ => k) done = ran fails (l1 ++ l2) y done.
Proof. intros Hc Hk. now apply io_bind_ran with (x := tt). Qed.

Lemma io_last_ran {B : Type} (c : IO unit) l (y : B) :
  (forall done, c done = ran fails l tt done) ->
  forall done, io_bind c (fun _ => io_ret y) done = ran fails l y done.
Proof.
  intros Hc done. rewrite <- (app_nil_r l) at 1.
  apply io_then_ran; [exact Hc | apply io_ret_ran].
Qed.

Lemma print_each_ran ps done :
  print_each fails ps done = ran fails (map Printed ps) tt done.
Proof.
  revert done. induction ps as [|p ps IH]; intros done; simpl; [reflexivity|].
  unfold io_bind, print_one, ran. simpl.
  destruct (fails done p); [reflexivity|]. apply IH.
Qed.

Lemma perform_ran evs done :
  filter is_print evs = [] -> perform evs done = ran fails evs tt done.
Proof. intros H. unfold ran. now rewrite (cut_silent evs done H). Qed.

Lemma logged_io_ran a t k done :
  logged_io fails settings a t k done = ran fails (logged settings a t k) tt done.
Proof.
  unfold logged_io, logged, log_io, when.
  destruct (log_req a); [apply print_each_ran | reflexivity].
Qed.

Lemma sleep_silent which d : filter is_print (sleep which d) = [].
Proof. now destruct d. Qed.

(** The body of the loop does what it does when no log call raises, up to
    the first log call that does. *)
Lemma attempt_io_ran a n done :
  attempt_io fails settings requests a n done
  = ran fails (fst (attempt settings requests a n))
      (snd (attempt settings requests a n)) done.
Proof.
  revert done. unfold attempt_io, attempt.
  assert (Hcall : forall done,
            perform [Requested (verb a) (the_call a)] done
            = ran fails [Requested (verb a) (the_call a)] tt done)
    by (intros; now apply perform_ran).
  assert (Hsleep : forall done,
            perform (sleep PerRequest (DELAY_PER_REQUEST settings)) done
            = ran fails (sleep PerRequest (DELAY_PER_REQUEST settings)) tt done)
    by (intros; apply perform_ran, sleep_silent).
  pose proof (logged_io_ran a) as Hlog.
  destruct (requester requests a (the_call a) n) as [res|e|e].
  - destruct (negb (truthy res)); [|destruct (status_code res >=? 400)];
      cbn [fst snd]; rewrite <- !app_assoc;
      (apply io_then_ran; [apply Hlog|]);
      (apply io_then_ran; [apply Hcall|]);
      (apply io_then_ran; [apply Hlog|]);
      apply io_last_ran; first [apply Hlog | apply Hsleep].
  - cbn [fst snd]. rewrite <- !app_assoc.
    apply io_then_ran; [apply Hlog|].
    apply io_then_ran; [apply Hcall|].
    apply io_then_ran; [apply Hlog|].
    apply io_last_ran, Hlog.
  - cbn [fst snd]. rewrite <- !app_assoc. unfold when.
    apply io_then_ran; [apply Hlog|].
    apply io_then_ran; [apply Hcall|].
    apply io_then_ran; [apply Hlog|].
    apply io_then_ran; [apply Hlog|].
    apply io_last_ran.
    destruct (nonempty (err_msg a)); [apply Hlog | apply io_ret_ran].
Qed.

(** So does the loop. *)
Lemma req_loop_io_ran a fuel :
  forall c n done evs out,
    req_loop settings requests a fuel c n = Some (evs, out) ->
    req_loop_io fails settings requests a fuel c n done
    = Some (ran fails evs out done).
Proof.
  induction fuel as [|fuel IH]; intros c n done evs out; simpl;
    [discriminate|].
  destruct (c <? retries a);
    [|intros H; injection H as <- <-; reflexivity].
  rewrite attempt_io_ran. unfold ran at 1.
  destruct (attempt settings requests a n) as [evs0 [res|]]; cbn [fst snd].
  - intros H. injection H as <- <-. unfold ran.
    now destruct (cut fails evs0 done) as [done' [p|]].
  - destruct (req_loop settings requests a fuel (c + 1) (S n))
      as [[rest out']|] eqn:E; [|discriminate].
    intros H. injection H as <- <-.
    unfold ran. rewrite cut_app.
    destruct (cut fails evs0 done) as [done' [p|]]; [reflexivity|].
    rewrite (IH _ _ _ _ _ E). unfold ran. rewrite cut_app.
    now rewrite (cut_silent _ done' (sleep_silent _ _)).
Qed.

(** Without logging nothing of [req] can be cut short. *)
Lemma ran_silent {A : Type} evs (x : A) done :
  filter is_print evs = [] -> ran fails evs x done = (done ++ evs, inr x).
Proof. intros H. unfold ran. now rewrite (cut_silent evs done H). Qed.

Lemma effects_silent evs : filter is_print evs = [] -> effects evs = evs.
Proof.
  unfold effects. induction evs as [|e evs IH]; simpl; [reflexivity|].
  destruct e as [p|v c|w d]; simpl; [discriminate| |]; intros H;
    now rewrite (IH H).
Qed.

(** When no print call raises, [req_io] is [req]. *)
Lemma req_io_when_log_returns a :
  (forall done p, fails done p = false) ->
  req_io fails settings requests a
  = match req settings requests a with
    | Some (evs, out) => Some (evs, inr out)
    | None => None
    end.
Proof.
  intros Hok.
  assert (Hcut : forall evs done, cut fails evs done = (done ++ evs, None)).
  { induction evs as [|e evs IHe]; intros done; simpl.
    - now rewrite app_nil_r.
    - destruct e as [p|v c|w d]; [rewrite Hok| |];
        rewrite IHe, <- app_assoc; reflexivity. }
  unfold req_io, req.
  destruct (req_loop_total settings requests a (S (Z.to_nat (retries a))) 0 0%nat)
    as [[evs out] Heq]; [lia|].
  rewrite Heq, (req_loop_io_ran a _ _ _ [] _ _ Heq).
  unfold ran. now rewrite Hcut.
Qed.

End ReqIOFacts.

(** C8, with log calls that may raise.  For the same request and the same
    network behaviour, whatever print calls raise: [req] with [log_req] cleared ends with an
    outcome of its own (a response returned or [ReqException] raised), and
    [req] with [log_req] set either ends with that same outcome, after the
    same number of network calls and the same calls and sleeps in the same
    order, or is left by the exception of a print call that raised, having
    made by then a first part of those calls and sleeps, so no more network
    calls.  The flag changes the outcome only through a log call that
    raises. *)
Theorem req_log_req_changes_outcome_only_by_raising
  (fails : list Event -> Print -> bool)
  (settings : Settings) (requests : Handler) (a : ReqArgs) :
  exists evs out,
    req_io fails settings requests (with_log_req false a) = Some (evs, inr out)
    /\ exists evs_on r,
         req_io fails settings requests (with_log_req true a) = Some (evs_on, r)
         /\ match r with
            | inr out' =>
                out' = out
                /\ attempts evs_on = attempts evs
                /\ effects evs_on = evs
            | inl p =>
                fails evs_on p = true
                /\ (attempts evs_on <= attempts evs)%nat
                /\ exists rest, evs = effects evs_on ++ rest
            end.
Proof.
  unfold req_io.
  change (retries (with_log_req true a)) with (retries a).
  change (retries (with_log_req false a)) with (retries a).
  set (fuel := S (Z.to_nat (retries a))).
  destruct (req_loop_total settings requests (with_log_req false a) fuel 0 0%nat)
    as [[evs out] Hoff]; [subst fuel; simpl; lia|].
  destruct (req_loop_total settings requests (with_log_req true a) fuel 0 0%nat)
    as [[evs1 out1] Hon]; [subst fuel; simpl; lia|].
  pose proof (req_loop_prints_nothing settings requests (with_log_req false a)
                fuel eq_refl _ _ _ _ Hoff) as Hsilent.
  pose proof (req_loop_log_req settings requests (with_log_req true a) false
                fuel 0 0%nat) as Hsame.
  change (with_log_req false (with_log_req true a)) with (with_log_req false a)
    in Hsame.
  rewrite Hoff, Hon in Hsame. destruct Hsame as [<- Heff].
  rewrite (effects_silent evs Hsilent) in Heff.
  exists evs, out. split.
  - rewrite (req_loop_io_ran fails settings requests _ _ _ _ [] _ _ Hoff).
    now rewrite (ran_silent fails evs out [] Hsilent).
  - rewrite (req_loop_io_ran fails settings requests _ _ _ _ [] _ _ Hon).
    unfold ran. destruct (cut fails evs1 []) as [done [p|]] eqn:Ecut.
    + exists done, (inl p). split; [reflexivity|].
      apply cut_raised in Ecut as [Hfails (before & rest & -> & ->)].
      cbn [app]. split; [exact Hfails|].
      rewrite effects_app in Heff. cbn [effects filter is_print negb] in Heff.
      fold (effects rest) in Heff. fold (effects before) in Heff.
      split.
      * rewrite Heff, attempts_app, attempts_effects. lia.
      * now exists (effects rest).
    + apply cut_none in Ecut. cbn [app] in Ecut. subst done.
      exists evs1, (inr out). split; [reflexivity|].
      split; [reflexivity|]. split; [|now symmetry].
      now rewrite <- (attempts_effects evs1), <- Heff.
Qed.

(** C8 as it is worded does not hold when a log call raises.  With
    [LOG_SAVE] set and a log file that cannot be opened, against a server
    whose third response is the first good one: with [log_req] set, [req]
    is left after one network call by the exception of
    [log(..., save=True)], which reports the first failed attempt; with
    [log_req] cleared it makes three network calls and returns the third
    response. *)
Lemma req_failing_log_changes_outcome :
  let on := req_io cannot_open_log_file saving_settings recovering_server
              (with_log_req true (demo_args 3)) in
  let off := req_io cannot_open_log_file saving_settings recovering_server
               (with_log_req false (demo_args 3)) in
  let call := {| call_url := "https://www.pixiv.net/ranking.php";
                 call_headers := []; call_params := Some [("mode", "daily")];
                 call_timeout := 10; call_data := None; call_proxies := None;
                 call_verify := true |} in
  on = Some
         ([Printed {| pr_sink := Stdout; pr_start := EmptyString;
                      pr_prefix := None;
                      pr_objects := REQUEST_INFO "GET"
                                      "https://www.pixiv.net/ranking.php"
                                      (Some [("mode", "daily")]);
                      pr_end := EmptyString |};
           Requested GET call;
           Printed {| pr_sink := Stdout; pr_start := EmptyString;
                      pr_prefix := None; pr_objects := STATUS_CODE 500;
                      pr_end := newline |}],
          inl {| pr_sink := File EmptyString; pr_start := EmptyString;
                 pr_prefix := None; pr_objects := REQUEST_FALSEY 3;
                 pr_end := newline |})
  /\ off = Some
             ([Requested GET call; Slept RetryDelay 3;
               Requested GET call; Slept RetryDelay 3;
               Requested GET call],
              inr (Return (response true 200 "ok")))
  /\ option_map (fun r => attempts (fst r)) on = Some 1%nat
  /\ option_map (fun r => attempts (fst r)) off = Some 3%nat.
Proof.
  cbv zeta. repeat split; vm_compute; reflexivity.
Qed.


Lemma req_exhausts_all_retries_witness :
  exists evs,
    req demo_settings failing_server (demo_args 4) =
      Some (evs, RaiseReqException
                   (REQUEST_EXCEPTION_MSG "GET" "https://www.pixiv.net/ranking.php"
                      (Some [("mode", "daily")])))
    /\ Z.of_nat (attempts evs) = 4.
Proof.
  apply (req_exhausts_all_retries demo_settings failing_server (demo_args 4) 4).
  - lia.
  - reflexivity.
  - intros [|[|[|i]]] _; reflexivity.
Defined.

Lemma req_first_success_returns_at_once_witness :
  exists evs,
    req rate_limited_settings healthy_server (demo_args 3)
      = Some (evs, Return (response true 200 "ok"))
    /\ attempts evs = 1%nat
    /\ retry_sleeps evs = 0%nat
    /\ per_request_sleeps evs = configured (Some 2%float)
    /\ evs = (if true
              then map Printed
                     (log rate_limited_settings
                        (REQUEST_INFO (upper "get")
                           "https://www.pixiv.net/ranking.php"
                           (Some [("mode", "daily")]))
                        (kw_with_end EmptyString kw))
              else [])
             ++ [Requested (if String.eqb "GET" (upper "get") then GET else POST)
                   {| call_url := "https://www.pixiv.net/ranking.php";
                      call_headers := []; call_params := Some [("mode", "daily")];
                      call_timeout := 10; call_data := None; call_proxies := None;
                      call_verify := true |}]
             ++ (if true
                 then map Printed (log rate_limited_settings (STATUS_CODE 200) kw)
                 else [])
             ++ match Some 2%float with
                | Some d => [Slept PerRequest d]
                | None => []
                end.
Proof.
  apply (req_first_success_returns_at_once rate_limited_settings healthy_server
           (demo_args 3) (response true 200 "ok")).
  - reflexivity.
  - reflexivity.
  - reflexivity.
  - reflexivity.
Defined.

(** The spec's scenario: with three tries, two responses with status 500 and
    then a 200 with body ["ok"] give that response after three calls and two
    retry sleeps. *)
Example req_recovers_on_third_attempt :
  exists evs,
    req demo_settings recovering_server (demo_args 3)
      = Some (evs, Return (response true 200 "ok"))
    /\ attempts evs = 3%nat /\ retry_sleeps evs = 2%nat.
Proof. eexists. split; [vm_compute; reflexivity | split; reflexivity]. Qed.

(* ================================================================= *)
(** * Properties of [Printer] *)

Lemma slice_from_1 {A : Type} (l : list A) : slice_from 1 l = tl l.
Proof. unfold slice_from. simpl. now destruct l. Qed.

Lemma length_tl_app {A : Type} (l : list A) (x : A) :
  List.length (tl (l ++ [x])) = List.length l.
Proof. destruct l; simpl; [reflexivity|]. rewrite length_app. simpl. lia. Qed.

Lemma slice_from_most_recent {A : Type} (k : Z) (l : list A) :
  0 < k < len l -> slice_from (- k) l = most_recent (Z.to_nat k) l.
Proof.
  unfold slice_from, most_recent, len. intros Hk.
  destruct (Z.ltb_spec (- k) 0) as [_|H]; [|lia].
  rewrite firstn_rev, rev_involutive. f_equal. lia.
Qed.

Section PrinterFacts.

Variable settings : Settings.

Lemma print_progress_ready p w curr total msg :
  ready p -> ready (fst (fst (print_progress settings curr total msg (p, w)))).
Proof.
  intros [Hne Hset]. destruct p as [first lp lptl lppt est st lpl].
  unfold ready in *. simpl in Hne, Hset.
  unfold_py.
  destruct (percent_done curr total) as [e|pct]; simpl; [auto|].
  destruct first; simpl.
  - split; [assumption|]. intros _. repeat split; discriminate.
  - destruct (Hset eq_refl) as (Hlp & Hlppt & Hst).
    destruct lp as [lp|]; [|contradiction]. destruct lppt as [t0|]; [|contradiction].
    simpl. destruct (lp =? pct); simpl; [split; [assumption|intros _; repeat split; congruence]|].
    assert (Hw : forall x, slice_from 1 (est ++ [x]) <> []).
    { intros x. rewrite slice_from_1. intros H.
      apply (f_equal (@List.length float)) in H. rewrite length_tl_app in H.
      destruct est; [contradiction | discriminate]. }
    destruct (truediv _ (pct - lp)) as [e|per]; simpl;
      [split; [assumption|intros _; repeat split; congruence]|].
    destruct (rounded_ratio _ _) as [e|chunk]; simpl;
      [split; [apply Hw|intros _; repeat split; congruence]|].
    destruct (chunk <? _); [destruct (negb (chunk =? 0))|]; simpl;
      try (destruct (truediv _ _) as [e|v]; simpl);
      (split; [apply Hw|intros _; repeat split; congruence]).
Qed.

Lemma print_done_ready p w msg :
  ready p -> ready (fst (fst (print_done settings msg (p, w)))).
Proof.
  intros [Hne Hset]. destruct p as [first lp lptl lppt est st lpl].
  unfold ready in *. simpl in Hne, Hset. unfold_py.
  destruct (nonempty msg); simpl; [split; [discriminate|discriminate]|].
  destruct first; simpl; [split; [discriminate|discriminate]|].
  destruct (Hset eq_refl) as (_ & _ & Hst).
  destruct st as [t|]; [|contradiction]. simpl.
  split; [discriminate|discriminate].
Qed.

Lemma call_ready p w o :
  ready p -> ready (fst (fst (call settings o (p, w)))).
Proof.
  destruct o; simpl; [apply print_progress_ready | apply print_done_ready].
Qed.

Lemma init_ready : ready init.
Proof. split; [discriminate | discriminate]. Qed.

Lemma reachable_ready p : reachable settings p -> ready p.
Proof.
  induction 1 as [|p w o _ IH]; [apply init_ready | now apply call_ready].
Qed.

(** Each division raises [ZeroDivisionError] only on a zero divisor. *)
Lemma truediv_zero x d : truediv x d = inl ZeroDivisionError -> d = 0.
Proof.
  unfold truediv. destruct (Z.eqb_spec d 0); [auto | discriminate].
Qed.

Lemma to_int_no_zero_division rnd x : to_int rnd x <> inl ZeroDivisionError.
Proof. unfold to_int. destruct (Prim2SF x); discriminate. Qed.

Lemma percent_done_zero curr total :
  percent_done curr total = inl ZeroDivisionError -> total = 0.
Proof.
  unfold percent_done, int_truediv.
  destruct (truediv _ total) as [e|q] eqn:E.
  - intros H. injection H as ->. now apply truediv_zero in E.
  - intros H. now apply to_int_no_zero_division in H.
Qed.

Lemma rounded_ratio_zero a b :
  rounded_ratio a b = inl ZeroDivisionError -> b = 0.
Proof.
  unfold rounded_ratio, int_truediv.
  destruct (truediv _ b) as [e|q] eqn:E.
  - intros H. injection H as ->. now apply truediv_zero in E.
  - intros H. now apply to_int_no_zero_division in H.
Qed.

Lemma len_nonempty {A : Type} (l : list A) : l <> [] -> len l <> 0.
Proof. destruct l; [contradiction | unfold len; simpl; lia]. Qed.

Lemma print_progress_no_zero_division p w curr total msg :
  ready p -> total <> 0 ->
  snd (print_progress settings curr total msg (p, w)) <> inl ZeroDivisionError.
Proof.
  intros [Hne Hset] Ht. destruct p as [first lp lptl lppt est st lpl].
  simpl in Hne, Hset. unfold_py.
  destruct (percent_done curr total) as [e|pct] eqn:Ep; simpl.
  { intros H. injection H as ->. now apply percent_done_zero in Ep. }
  destruct first; simpl; [discriminate|].
  destruct (Hset eq_refl) as (Hlp & Hlppt & Hst).
  destruct lp as [lp|]; [|contradiction]. destruct lppt as [t0|]; [|contradiction].
  simpl. destruct (Z.eqb_spec lp pct) as [Heq|Hneq]; simpl; [discriminate|].
  destruct (truediv _ (pct - lp)) as [e|per] eqn:Ed; simpl.
  { intros H. injection H as ->. apply truediv_zero in Ed. lia. }
  destruct (rounded_ratio _ _) as [e|chunk] eqn:Er; simpl.
  { intros H. injection H as ->. apply rounded_ratio_zero in Er. lia. }
  destruct (chunk <? _); [destruct (Z.eqb_spec chunk 0) as [Hc|Hc]|]; simpl;
    try discriminate.
  - destruct (truediv _ chunk) as [e|v] eqn:Ec; simpl; [|discriminate].
    intros H. injection H as ->. now apply truediv_zero in Ec.
  - destruct (truediv _ (len _)) as [e|v] eqn:Ec; simpl; [|discriminate].
    intros H. injection H as ->. apply truediv_zero in Ec.
    rewrite slice_from_1 in Ec. unfold len in Ec.
    rewrite length_tl_app in Ec. destruct est; [contradiction | discriminate].
Qed.

Lemma print_done_no_zero_division p w msg :
  snd (print_done settings msg (p, w)) <> inl ZeroDivisionError.
Proof.
  destruct p as [first lp lptl lppt est st lpl]. unfold_py.
  destruct (nonempty msg); simpl; [discriminate|].
  destruct first; simpl; [discriminate|].
  destruct st; simpl; discriminate.
Qed.

Lemma run_no_zero_division ops :
  forall p w, ready p -> positive_totals ops ->
  snd (run settings ops (p, w)) <> inl ZeroDivisionError.
Proof.
  induction ops as [|o ops IH]; intros p w Hp Hpos; simpl; [discriminate|].
  unfold bind.
  pose proof (call_ready p w o Hp) as Hp'.
  assert (Ho : snd (call settings o (p, w)) <> inl ZeroDivisionError).
  { destruct o as [curr total msg|msg]; simpl.
    - apply print_progress_no_zero_division; [assumption|].
      specialize (Hpos curr total msg (or_introl eq_refl)). lia.
    - apply print_done_no_zero_division. }
  destruct (call settings o (p, w)) as [[p' w'] [e|[]]]; simpl in *.
  - exact Ho.
  - apply IH; [assumption|]. intros c t m Hin. apply (Hpos c t m). now right.
Qed.

End PrinterFacts.

(** C7. On a printer in any state it can reach (fresh, or after any calls),
    a sequence of [print_progress] and [print_done] calls in which every
    [total] is positive never raises [ZeroDivisionError]: [total],
    [curr_percent - last_percent], [chunk_left] and the window length are
    non-zero wherever the code divides by them.  In particular, on a fresh
    printer, [print_progress(0, 100)], [(50, 100)], [(100, 100)] all
    return, the percent is 100 after them, and [print_done()] then returns. *)
Theorem progress_never_divides_by_zero
  (settings : Settings) (p : Printer) (ops : list Op) (w : World) :
  reachable settings p ->
  positive_totals ops ->
  snd (run settings ops (p, w)) <> inl ZeroDivisionError
  /\ (let steps := [Progress 0 100 None; Progress 50 100 None; Progress 100 100 None] in
      snd (run settings steps (init, w)) = inr tt
      /\ last_percent (fst (fst (run settings steps (init, w)))) = Some 100
      /\ snd (run settings (steps ++ [Done None]) (init, w)) = inr tt).
Proof.
  intros Hreach Hpos. split.
  - apply run_no_zero_division;
      [now apply (reachable_ready settings) | assumption].
  - cbv zeta. repeat split; vm_compute; reflexivity.
Qed.

Lemma progress_never_divides_by_zero_witness :
  let ops := [Progress 0 100 None; Progress 50 100 None;
              Progress 100 100 None; Done None] in
  snd (run demo_settings ops (init, demo_world)) <> inl ZeroDivisionError
  /\ (let steps := [Progress 0 100 None; Progress 50 100 None; Progress 100 100 None] in
      snd (run demo_settings steps (init, demo_world)) = inr tt
      /\ last_percent (fst (fst (run demo_settings steps (init, demo_world)))) = Some 100
      /\ snd (run demo_settings (steps ++ [Done None]) (init, demo_world)) = inr tt).
Proof.
  apply (progress_never_divides_by_zero demo_settings init
           [Progress 0 100 None; Progress 50 100 None;
            Progress 100 100 None; Done None] demo_world).
  - exact (reach_init demo_settings).
  - intros curr total msg Hin. simpl in Hin.
    destruct Hin as [H|[H|[H|[H|[]]]]]; inversion H; reflexivity.
Defined.

(** C9. [print_progress(curr, 0, msg)] raises [ZeroDivisionError] in the
    percent computation, whatever [curr] and [msg] are, and leaves the
    printer and the world exactly as they were: not an attribute is written,
    the clock is not read, nothing is printed. *)
Theorem progress_zero_total_raises_atomically
  (settings : Settings) (p : Printer) (w : World) (curr : Z) (msg : option string) :
  percent_done curr 0 = inl ZeroDivisionError
  /\ print_progress settings curr 0 msg (p, w) = ((p, w), inl ZeroDivisionError).
Proof. split; reflexivity. Qed.

Section WindowLength.

Variable settings : Settings.

(** [print_progress] keeps the window as long as it found it, on every path. *)
Lemma print_progress_window_length p w curr total msg :
  len (est_time_lefts (fst (fst (print_progress settings curr total msg (p, w)))))
  = len (est_time_lefts p).
Proof.
  destruct p as [first lp lptl lppt est st lpl]. unfold_py.
  destruct (percent_done curr total) as [e|pct]; simpl; [reflexivity|].
  destruct first; simpl; [reflexivity|].
  destruct (attr_eq lp pct); simpl; [reflexivity|].
  destruct lppt as [t0|]; simpl; [|reflexivity].
  destruct lp as [lp|]; simpl; [|reflexivity].
  assert (Hw : forall x, len (slice_from 1 (est ++ [x])) = len est).
  { intros x. unfold len. now rewrite slice_from_1, length_tl_app. }
  destruct (truediv _ (pct - lp)) as [e|per]; simpl; [reflexivity|].
  destruct (rounded_ratio _ _) as [e|chunk]; simpl; [apply Hw|].
  destruct (chunk <? _); [destruct (negb (chunk =? 0))|]; simpl;
    try (destruct (truediv _ _) as [e|v]; simpl); apply Hw.
Qed.

(** [print_done], when it returns, leaves the reset state: the attributes of
    a fresh printer, but a window of three zeros. *)
Lemma print_done_resets p w msg :
  snd (print_done settings msg (p, w)) = inr tt ->
  fst (fst (print_done settings msg (p, w)))
  = set_est_time_lefts [0; 0; 0]%float init.
Proof.
  destruct p as [first lp lptl lppt est st lpl]. unfold_py.
  destruct (nonempty msg); simpl; [reflexivity|].
  destruct first; simpl; [reflexivity|].
  destruct st; simpl; [reflexivity | discriminate].
Qed.

(** When [print_done] raises, it has not touched the printer. *)
Lemma print_done_raises p w msg e :
  snd (print_done settings msg (p, w)) = inl e ->
  fst (fst (print_done settings msg (p, w))) = p.
Proof.
  destruct p as [first lp lptl lppt est st lpl]. unfold_py.
  destruct (nonempty msg); simpl; [discriminate|].
  destruct first; simpl; [discriminate|].
  destruct st; simpl; [discriminate | reflexivity].
Qed.

Lemma call_keeps_three_slots p w o :
  len (est_time_lefts p) = 3 ->
  len (est_time_lefts (fst (fst (call settings o (p, w))))) = 3.
Proof.
  intros H. destruct o as [curr total msg|msg]; simpl.
  - now rewrite print_progress_window_length.
  - destruct (snd (print_done settings msg (p, w))) as [e|[]] eqn:E.
    + now rewrite (print_done_raises p w msg e E).
    + now rewrite (print_done_resets p w msg E).
Qed.

Lemma run_keeps_three_slots ops :
  forall p w,
    len (est_time_lefts p) = 3 ->
    len (est_time_lefts (fst (fst (run settings ops (p, w))))) = 3.
Proof.
  induction ops as [|o ops IH]; intros p w H; simpl; [assumption|].
  unfold bind. pose proof (call_keeps_three_slots p w o H) as H'.
  destruct (call settings o (p, w)) as [[p' w'] [e|[]]]; simpl in *;
    [assumption | now apply IH].
Qed.

End WindowLength.

(** C3 (what the code does). [print_done] on a fresh printer returns and
    resets every attribute to its constructed value except the window, which
    it sets to three zeros where the constructor puts five: the printer is
    not back in its freshly constructed state. *)
Theorem print_done_window_differs_from_fresh
  (settings : Settings) (w : World) (msg : option string) :
  let p' := fst (fst (print_done settings msg (init, w))) in
  snd (print_done settings msg (init, w)) = inr tt
  /\ is_first_print p' = true
  /\ start_time p' = None
  /\ last_percent p' = None
  /\ last_percent_print_time p' = None
  /\ last_percent_time_left p' = None
  /\ last_printed_line p' = None
  /\ est_time_lefts p' = [0; 0; 0]%float
  /\ len (est_time_lefts p') = 3
  /\ len (est_time_lefts init) = 5
  /\ p' <> init.
Proof.
  cbv zeta.
  assert (Hret : snd (print_done settings msg (init, w)) = inr tt).
  { unfold_py. destruct (nonempty msg); reflexivity. }
  rewrite (print_done_resets settings init w msg Hret).
  repeat split; try reflexivity; try assumption.
  intros H. apply (f_equal (fun p => List.length (est_time_lefts p))) in H.
  discriminate.
Qed.

(** C10. Once [print_done] has returned the window is three zeros, and it
    stays three entries long through every later call ([print_progress]
    appends the newest sample and drops the oldest; [print_done] resets to
    three again), whereas a fresh printer has five. *)
Theorem window_has_three_slots_after_print_done
  (settings : Settings) (p : Printer) (w : World) (msg : option string)
  (ops : list Op) :
  snd (print_done settings msg (p, w)) = inr tt ->
  let st := fst (print_done settings msg (p, w)) in
  est_time_lefts (fst st) = [0; 0; 0]%float
  /\ len (est_time_lefts (fst (fst (run settings ops st)))) = 3
  /\ len (est_time_lefts init) = 5.
Proof.
  intros Hret. cbv zeta.
  pose proof (print_done_resets settings p w msg Hret) as Hreset.
  destruct (print_done settings msg (p, w)) as [[p' w'] r]. simpl in *.
  subst p'. repeat split. now apply run_keeps_three_slots.
Qed.

Lemma window_has_three_slots_after_print_done_witness :
  let ops := [Progress 0 100 None; Progress 10 100 None; Progress 20 100 None] in
  let st := fst (print_done demo_settings None (init, demo_world)) in
  est_time_lefts (fst st) = [0; 0; 0]%float
  /\ len (est_time_lefts (fst (fst (run demo_settings ops st)))) = 3
  /\ len (est_time_lefts init) = 5.
Proof.
  apply (window_has_three_slots_after_print_done demo_settings init demo_world None
           [Progress 0 100 None; Progress 10 100 None; Progress 20 100 None]).
  reflexivity.
Defined.

Section Estimates.

Variable settings : Settings.

(** What a call of [print_progress] that returned leaves behind: the percent
    it computed, the estimate it reported, and the line rendered from them. *)
Lemma print_progress_returned p w curr total msg pct st :
  percent_done curr total = inr pct ->
  print_progress settings curr total msg (p, w) = (st, inr tt) ->
  is_first_print (fst st) = false
  /\ last_percent (fst st) = Some pct
  /\ last_printed_line (fst st)
     = Some (progress_line curr total pct (last_percent_time_left (fst st)) msg)
  /\ (is_first_print p = true -> last_percent_time_left (fst st) = Some infinity).
Proof.
  intros Hpct. destruct p as [first lp lptl lppt est t lpl]. unfold_py.
  rewrite Hpct. simpl.
  destruct first; simpl.
  { intros H. injection H as <-. simpl. repeat split. }
  destruct (attr_eq lp pct); simpl.
  { intros H. injection H as <-. simpl. repeat split. discriminate. }
  destruct lppt as [t0|]; simpl; [|discriminate].
  destruct lp as [lp|]; simpl; [|discriminate].
  destruct (truediv _ (pct - lp)) as [e|per]; simpl; [discriminate|].
  destruct (rounded_ratio _ _) as [e|chunk]; simpl; [discriminate|].
  destruct (chunk <? _); [destruct (negb (chunk =? 0))|]; simpl;
    try (destruct (truediv _ _) as [e|v]; simpl; [discriminate|]);
    intros H; injection H as <-; simpl; repeat split; discriminate.
Qed.

(** A call at the percent of the call before it only prints: it reuses the
    stored estimate and writes no attribute but the printed line. *)
Lemma print_progress_same_percent p w curr total msg pct :
  percent_done curr total = inr pct ->
  is_first_print p = false ->
  last_percent p = Some pct ->
  let line := progress_line curr total pct (last_percent_time_left p) msg in
  print_progress settings curr total msg (p, w)
  = ((set_last_printed_line (Some line) p, after_progress settings w 1 line), inr tt).
Proof.
  intros Hpct Hfirst Hlp line. subst line.
  destruct p as [first lp lptl lppt est t lpl]. simpl in *. subst first lp.
  unfold_py. rewrite Hpct. simpl. rewrite Z.eqb_refl. reflexivity.
Qed.

End Estimates.

(** C6. When [print_progress] returns and is then called again with
    arguments that give the same percent, the second call returns too and
    reports the very estimate of the call before: both lines are rendered
    from the same value, and the second call changes no attribute other
    than the printed line (it reads the clock once and prints).  On a fresh
    printer the first call reports the infinite estimate, in the
    time-left form of the line. *)
Theorem same_percent_reuses_estimate
  (settings : Settings) (p : Printer) (w : World)
  (c1 t1 : Z) (m1 : option string) (c2 t2 : Z) (m2 : option string)
  (pct : Z) (st1 : Printer * World) :
  0 < t1 -> 0 < t2 ->
  percent_done c1 t1 = inr pct ->
  percent_done c2 t2 = inr pct ->
  print_progress settings c1 t1 m1 (p, w) = (st1, inr tt) ->
  exists est,
    last_printed_line (fst st1) = Some (progress_line c1 t1 pct est m1)
    /\ last_percent_time_left (fst st1) = est
    /\ print_progress settings c2 t2 m2 st1
       = ((set_last_printed_line (Some (progress_line c2 t2 pct est m2)) (fst st1),
           after_progress settings (snd st1) 1 (progress_line c2 t2 pct est m2)),
          inr tt)
    /\ (p = init ->
        est = Some infinity
        /\ progress_line c1 t1 pct est None
           = PROGRESS_WITH_TIME_LEFT c1 t1 pct (Some infinity)).
Proof.
  intros _ _ H1 H2 Hcall.
  destruct (print_progress_returned settings p w c1 t1 m1 pct st1 H1 Hcall)
    as (Hfirst & Hlp & Hline & Hfresh).
  exists (last_percent_time_left (fst st1)).
  split; [exact Hline|]. split; [reflexivity|]. split.
  - destruct st1 as [p1 w1]. simpl in *.
    apply (print_progress_same_percent settings p1 w1 c2 t2 m2 pct H2 Hfirst Hlp).
  - intros ->. rewrite (Hfresh eq_refl). split; reflexivity.
Qed.

Lemma same_percent_reuses_estimate_witness :
  exists est,
    last_printed_line
      (fst (fst (print_progress demo_settings 10 100 None (init, demo_world))))
    = Some (progress_line 10 100 10 est None)
    /\ last_percent_time_left
         (fst (fst (print_progress demo_settings 10 100 None (init, demo_world))))
       = est
    /\ print_progress demo_settings 10 100 None
         (fst (print_progress demo_settings 10 100 None (init, demo_world)))
       = ((set_last_printed_line (Some (progress_line 10 100 10 est None))
             (fst (fst (print_progress demo_settings 10 100 None (init, demo_world)))),
           after_progress demo_settings
             (snd (fst (print_progress demo_settings 10 100 None (init, demo_world))))
             1 (progress_line 10 100 10 est None)),
          inr tt)
    /\ (init = init ->
        est = Some infinity
        /\ progress_line 10 100 10 est None
           = PROGRESS_WITH_TIME_LEFT 10 100 10 (Some infinity)).
Proof.
  apply (same_percent_reuses_estimate demo_settings init demo_world
           10 100 None 10 100 None 10
           (fst (print_progress demo_settings 10 100 None (init, demo_world)))).
  - reflexivity.
  - reflexivity.
  - reflexivity.
  - reflexivity.
  - reflexivity.
Defined.

Lemma truediv_nonzero x d : d <> 0 -> truediv x d = inr (x / float_of_int d)%float.
Proof. unfold truediv. intros H. now destruct (Z.eqb_spec d 0). Qed.

Lemma tl_app_nonempty {A : Type} (l : list A) (x : A) :
  l <> [] -> tl (l ++ [x]) = tl l ++ [x].
Proof. destruct l; [contradiction | reflexivity]. Qed.

(** C4 (as the code has it). On a call that is not the first, with a positive
    [total], whose percent [pct] is above the previous one [lp]: the raw
    estimate [(now - last_percent_print_time) / (pct - lp) * (100 - pct)]
    goes in at the end of the window and the oldest entry is dropped; then,
    with [chunk_left = round((100 - pct) / (pct - lp))] not negative, the
    estimate stored and printed is the mean of the [chunk_left] most recent
    samples when [chunk_left] is below the window length (exactly [0.0] when
    [chunk_left] is 0) and the mean of the whole window otherwise. *)
Theorem advancing_percent_estimate
  (settings : Settings) (p : Printer) (w : World)
  (curr total : Z) (msg : option string) (pct lp : Z) (t0 : float)
  (chunk_left : Z) :
  reachable settings p ->
  0 < total ->
  percent_done curr total = inr pct ->
  is_first_print p = false ->
  last_percent p = Some lp ->
  lp < pct ->
  last_percent_print_time p = Some t0 ->
  rounded_ratio (100 - pct) (pct - lp) = inr chunk_left ->
  0 <= chunk_left ->
  let now := clock w (reads w) in
  let raw := ((now - t0) / float_of_int (pct - lp) * float_of_int (100 - pct))%float in
  let window := tl (est_time_lefts p) ++ [raw] in
  let est := estimate_as_specified chunk_left window in
  let line := progress_line curr total pct (Some est) msg in
  print_progress settings curr total msg (p, w)
  = (({| is_first_print := false;
         last_percent := Some pct;
         last_percent_time_left := Some est;
         last_percent_print_time := Some now;
         est_time_lefts := window;
         start_time := start_time p;
         last_printed_line := Some line |},
      after_progress settings w 1 line),
     inr tt)
  /\ len window = len (est_time_lefts p).
Proof.
  intros Hreach _ Hpct Hfirst Hlp Hadv Hlppt Hround Hchunk.
  destruct (reachable_ready settings p Hreach) as [Hne _].
  destruct p as [first last lptl lppt est t lpl]. simpl in *.
  subst first last lppt.
  assert (Hlen : len (tl est ++
            [((clock w (reads w) - t0) / float_of_int (pct - lp)
              * float_of_int (100 - pct))%float]) = len est).
  { rewrite <- tl_app_nonempty by assumption. unfold len.
    now rewrite length_tl_app. }
  split; [|exact Hlen].
  unfold_py. rewrite Hpct. simpl.
  destruct (Z.eqb_spec lp pct) as [Heq|_]; [lia|]. simpl.
  rewrite truediv_nonzero by lia. simpl. rewrite Hround. simpl.
  rewrite slice_from_1, tl_app_nonempty by assumption.
  set (window := tl est ++ _) in *.
  unfold estimate_as_specified.
  destruct (Z.ltb_spec chunk_left (len window)) as [Hlt|Hge].
  - destruct (Z.eqb_spec chunk_left 0) as [Hz|Hnz]; simpl; [reflexivity|].
    rewrite truediv_nonzero by assumption. simpl.
    rewrite slice_from_most_recent by lia. reflexivity.
  - rewrite truediv_nonzero; [reflexivity|].
    apply len_nonempty in Hne. lia.
Qed.

Lemma advancing_percent_estimate_witness :
  let p := fst (started 0 100) in
  let w := snd (started 0 100) in
  let now := clock w (reads w) in
  let raw := ((now - 0) / float_of_int (50 - 0) * float_of_int (100 - 50))%float in
  let window := tl (est_time_lefts p) ++ [raw] in
  let est := estimate_as_specified 1 window in
  let line := progress_line 50 100 50 (Some est) None in
  print_progress demo_settings 50 100 None (p, w)
  = (({| is_first_print := false;
         last_percent := Some 50;
         last_percent_time_left := Some est;
         last_percent_print_time := Some now;
         est_time_lefts := window;
         start_time := start_time p;
         last_printed_line := Some line |},
      after_progress demo_settings w 1 line),
     inr tt)
  /\ len window = len (est_time_lefts p).
Proof.
  apply (advancing_percent_estimate demo_settings (fst (started 0 100))
           (snd (started 0 100)) 50 100 None 50 0 0%float 1).
  - exact (reach_call demo_settings init demo_world (Progress 0 100 None)
             (reach_init demo_settings)).
  - reflexivity.
  - vm_compute; reflexivity.
  - reflexivity.
  - vm_compute; reflexivity.
  - reflexivity.
  - vm_compute; reflexivity.
  - vm_compute; reflexivity.
  - lia.
Defined.

(** C4 as it is worded does not hold when the percent has run past 100:
    after [print_progress(100, 100)], the call [print_progress(150, 100)]
    ten seconds later has [chunk_left = round(-50 / 50) = -1], which is
    below the window length, so the code takes the slice [[1:]] of the
    window (four samples) and divides their sum by [-1], giving [10.0];
    the mean of the [-1] most recent samples, however it is read, is not
    that (no samples: [0 / -1 = -0.0]). *)
Lemma estimate_past_100_percent_not_as_specified :
  let st := started 100 100 in
  let st' := fst (print_progress demo_settings 150 100 None st) in
  is_first_print (fst st) = false
  /\ last_percent (fst st) = Some 100
  /\ percent_done 150 100 = inr 150
  /\ rounded_ratio (100 - 150) (150 - 100) = inr (-1)
  /\ snd (print_progress demo_settings 150 100 None st) = inr tt
  /\ est_time_lefts (fst st') = [0; 0; 0; 0; -10]%float
  /\ last_percent_time_left (fst st') = Some 10%float
  /\ estimate_as_specified (-1) (est_time_lefts (fst st')) = neg_zero
  /\ last_percent_time_left (fst st')
     <> Some (estimate_as_specified (-1) (est_time_lefts (fst st'))).
Proof.
  cbv zeta. repeat split; try (vm_compute; reflexivity).
  intros H.
  apply (f_equal (fun o => match o with
                           | Some x => (x <? 1)%float
                           | None => false
                           end)) in H.
  vm_compute in H. discriminate H.
Qed.

(** The second operation of a printer averages over three samples where the
    first averaged over five: ten seconds for the first ten percent give a
    raw estimate of 90 seconds, reported as [90 / 3] after a [print_done]
    and as [90 / 5] on a fresh printer. *)
Example second_operation_averages_three_samples :
  let steps := [Progress 0 100 None; Progress 10 100 None] in
  last_percent_time_left
    (fst (fst (run demo_settings (Done None :: steps) (init, demo_world))))
  = Some 30%float
  /\ last_percent_time_left
       (fst (fst (run demo_settings steps (init, demo_world))))
     = Some 18%float.
Proof. split; vm_compute; reflexivity. Qed.

(* ================================================================= *)
(** * Further properties of [req] *)

Section ReqRuns.

Variable settings : Settings.
Variable requests : Handler.
Variable a : ReqArgs.

Lemma per_request_sleeps_app (l1 l2 : list Event) :
  per_request_sleeps (l1 ++ l2) = (per_request_sleeps l1 + per_request_sleeps l2)%nat.
Proof. unfold per_request_sleeps. now rewrite filter_app, length_app. Qed.

Lemma per_request_sleeps_logged t k :
  per_request_sleeps (logged settings a t k) = 0%nat.
Proof. unfold per_request_sleeps. now rewrite logged_silent. Qed.

Lemma retry_sleeps_retry d : retry_sleeps (sleep RetryDelay d) = configured d.
Proof. now destruct d. Qed.

Lemma per_request_sleeps_sleep d :
  per_request_sleeps (sleep PerRequest d) = configured d
  /\ per_request_sleeps (sleep RetryDelay d) = 0%nat.
Proof. now destruct d. Qed.

(** What a pass through the loop body tells about the call it made. *)
Lemma attempt_outcome n :
  match snd (attempt settings requests a n) with
  | Some res =>
      requester requests a (the_call a) n = Returned res
      /\ truthy res = true /\ status_code res < 400
      /\ per_request_sleeps (fst (attempt settings requests a n))
         = configured (DELAY_PER_REQUEST settings)
  | None =>
      transient (requester requests a (the_call a) n) = true
      /\ per_request_sleeps (fst (attempt settings requests a n)) = 0%nat
  end.
Proof.
  unfold attempt, transient.
  destruct (requester requests a (the_call a) n) as [res|e|e].
  - destruct (truthy res) eqn:Ht; simpl negb; cbv iota.
    + destruct (Z.geb_spec (status_code res) 400) as [Hs|Hs]; simpl.
      * split; [reflexivity|].
        rewrite !per_request_sleeps_app, !per_request_sleeps_logged. reflexivity.
      * split; [reflexivity|]. split; [assumption|]. split; [assumption|].
        rewrite !per_request_sleeps_app, !per_request_sleeps_logged.
        now rewrite (proj1 (per_request_sleeps_sleep _)).
    + simpl. split; [reflexivity|].
      rewrite !per_request_sleeps_app, !per_request_sleeps_logged. reflexivity.
  - simpl. split; [reflexivity|].
    rewrite !per_request_sleeps_app, !per_request_sleeps_logged. reflexivity.
  - simpl. split; [reflexivity|].
    rewrite !per_request_sleeps_app, !per_request_sleeps_logged.
    unfold per_request_sleeps. now rewrite when_logged_silent.
Qed.

(** The loop returns the response of the first call that is not a transient
    failure, if it comes within the budget. *)
Lemma req_loop_first_good res k :
  forall fuel c n,
    (k < fuel)%nat ->
    c + Z.of_nat k < retries a ->
    (forall i, (n <= i < n + k)%nat ->
               transient (requester requests a (the_call a) i) = true) ->
    requester requests a (the_call a) (n + k) = Returned res ->
    truthy res = true -> status_code res < 400 ->
    exists evs,
      req_loop settings requests a fuel c n = Some (evs, Return res)
      /\ attempts evs = S k
      /\ retry_sleeps evs = (k * configured (REQUEST_RETRY_DELAY settings))%nat
      /\ per_request_sleeps evs = configured (DELAY_PER_REQUEST settings).
Proof.
  induction k as [|k IH]; intros fuel c n Hf Hc Htr Hres Ht Hs;
    (destruct fuel as [|fuel]; [lia|]); simpl;
    (destruct (Z.ltb_spec c (retries a)) as [_|Hge]; [|lia]).
  - rewrite Nat.add_0_r in Hres.
    pose proof (attempt_one_request settings requests a n) as [Hone Hzero].
    pose proof (attempt_outcome n) as Hout.
    rewrite (attempt_returns settings requests a n res Hres Ht Hs) in *.
    simpl in Hone, Hzero, Hout. destruct Hout as (_ & _ & _ & Hper).
    eexists; repeat split; eauto.
  - pose proof (attempt_one_request settings requests a n) as [Hone Hzero].
    pose proof (attempt_outcome n) as Hout.
    rewrite (attempt_retries settings requests a n (Htr n ltac:(lia))) in Hout.
    pose proof (attempt_retries settings requests a n (Htr n ltac:(lia))) as Hnone.
    destruct (attempt settings requests a n) as [evs r]. simpl in *. subst r.
    destruct Hout as [_ Hper].
    destruct (IH fuel (c + 1) (S n)) as (rest & -> & Ha & Hr & Hp);
      [lia | lia | intros i Hi; apply Htr; lia
      | now rewrite Nat.add_succ_comm | assumption | assumption |].
    eexists; split; [reflexivity|].
    rewrite !attempts_app, !retry_sleeps_app, !per_request_sleeps_app.
    rewrite attempts_sleep, retry_sleeps_retry,
      (proj2 (per_request_sleeps_sleep _)), Hone, Hzero, Hper, Ha, Hr, Hp.
    repeat split; lia.
Qed.

(** Whatever the loop ends with, read back from its result. *)
Lemma req_loop_result fuel :
  forall c n evs out,
    req_loop settings requests a fuel c n = Some (evs, out) ->
    (forall i, (n <= i < n + attempts evs - 1)%nat ->
               transient (requester requests a (the_call a) i) = true)
    /\ match out with
       | Return res =>
           truthy res = true /\ status_code res < 400
           /\ (1 <= attempts evs)%nat
           /\ c + Z.of_nat (attempts evs) <= retries a
           /\ requester requests a (the_call a) (n + attempts evs - 1) = Returned res
           /\ retry_sleeps evs
              = ((attempts evs - 1) * configured (REQUEST_RETRY_DELAY settings))%nat
           /\ per_request_sleeps evs = configured (DELAY_PER_REQUEST settings)
       | RaiseReqException msg =>
           msg = REQUEST_EXCEPTION_MSG (req_TYPE a) (url a) (params a)
           /\ Z.of_nat (attempts evs) = Z.max 0 (retries a - c)
           /\ (attempts evs = 0%nat
               \/ transient (requester requests a (the_call a)
                               (n + attempts evs - 1)) = true)
           /\ retry_sleeps evs
              = (attempts evs * configured (REQUEST_RETRY_DELAY settings))%nat
           /\ per_request_sleeps evs = 0%nat
       end.
Proof.
  induction fuel as [|fuel IH]; intros c n evs out; simpl; [discriminate|].
  destruct (Z.ltb_spec c (retries a)) as [Hlt|Hge].
  2:{ intros H. injection H as <- <-.
      change (attempts []) with 0%nat. change (retry_sleeps []) with 0%nat.
      change (per_request_sleeps []) with 0%nat.
      split; [intros i Hi; lia|].
      split; [reflexivity|]. split; [lia|]. split; [now left|].
      split; reflexivity. }
  pose proof (attempt_one_request settings requests a n) as [Hone Hzero].
  pose proof (attempt_outcome n) as Hout.
  destruct (attempt settings requests a n) as [evs0 [res|]]; simpl in *.
  - intros H. injection H as <- <-. rewrite Hone.
    destruct Hout as (Hreq & Ht & Hs & Hper).
    split; [intros i Hi; lia|].
    replace (n + 1 - 1)%nat with n by lia.
    repeat split; auto; try lia.
  - destruct Hout as [Htr Hper].
    destruct (req_loop settings requests a fuel (c + 1) (S n))
      as [[rest out']|] eqn:E; [|discriminate].
    intros H. injection H as <- <-.
    destruct (IH (c + 1) (S n) rest out' E) as [Hall Hres].
    rewrite !attempts_app, !retry_sleeps_app, !per_request_sleeps_app.
    rewrite attempts_sleep, retry_sleeps_retry,
      (proj2 (per_request_sleeps_sleep _)), Hone, Hzero, Hper.
    split.
    + intros i Hi. destruct (Nat.eq_dec i n) as [->|Hne]; [assumption|].
      apply Hall. lia.
    + destruct out' as [res|msg].
      * destruct Hres as (Ht & Hs & H1 & Hc & Hreq & Hr & Hp).
        split; [assumption|]. split; [assumption|]. split; [lia|].
        split; [lia|]. split.
        { replace (n + (1 + (0 + attempts rest)) - 1)%nat
            with (S n + attempts rest - 1)%nat by lia. exact Hreq. }
        split; [|lia].
        rewrite Hr. destruct (REQUEST_RETRY_DELAY settings); simpl configured; lia.
      * destruct Hres as (Hm & Hc & Hlast & Hr & Hp).
        split; [assumption|]. split; [lia|]. split.
        { right. destruct (attempts rest) as [|m] eqn:Em.
          - replace (n + (1 + (0 + 0)) - 1)%nat with n by lia. assumption.
          - destruct Hlast as [H0|Hl]; [discriminate|].
            replace (n + (1 + (0 + S m)) - 1)%nat
              with (S n + S m - 1)%nat by lia. exact Hl. }
        split; [|lia].
        rewrite Hr. destruct (REQUEST_RETRY_DELAY settings); simpl configured; lia.
Qed.

End ReqRuns.

(** X1. [req] returns the response of the first call that is not a transient
    failure: if calls [0 .. k-1] fail transiently, call [k] returns a truthy
    response with a status below 400 and [k < retries], then [req] returns
    that response after [k + 1] calls, having slept the retry delay (when
    configured) once per failed call and the per-request delay (when
    configured) once. *)
Theorem req_returns_first_good_response
  (settings : Settings) (requests : Handler) (a : ReqArgs)
  (res : Response) (k : nat) :
  Z.of_nat k < retries a ->
  (forall i, (i < k)%nat ->
             transient (requester requests a (the_call a) i) = true) ->
  requester requests a (the_call a) k = Returned res ->
  truthy res = true ->
  status_code res < 400 ->
  exists evs,
    req settings requests a = Some (evs, Return res)
    /\ attempts evs = S k
    /\ retry_sleeps evs = (k * configured (REQUEST_RETRY_DELAY settings))%nat
    /\ per_request_sleeps evs = configured (DELAY_PER_REQUEST settings).
Proof.
  intros Hk Htr Hres Ht Hs. unfold req.
  apply (req_loop_first_good settings requests a res k); try assumption.
  - lia.
  - intros i Hi. apply Htr. lia.
Qed.

Lemma req_returns_first_good_response_witness :
  exists evs,
    req demo_settings recovering_server (demo_args 3)
      = Some (evs, Return (response true 200 "ok"))
    /\ attempts evs = 3%nat
    /\ retry_sleeps evs = (2 * configured (Some 3%float))%nat
    /\ per_request_sleeps evs = configured None.
Proof.
  apply (req_returns_first_good_response demo_settings recovering_server
           (demo_args 3) (response true 200 "ok") 2).
  - reflexivity.
  - intros [|[|i]] Hi; [reflexivity | reflexivity | lia].
  - reflexivity.
  - reflexivity.
  - reflexivity.
Defined.

(** X2. [req] never hands back a bad response: a response it returns is
    truthy with a status below 400, it is the response of the last call
    made, every call before it was a transient failure, and between one and
    [retries] calls were made. *)
Theorem req_only_returns_good_responses
  (settings : Settings) (requests : Handler) (a : ReqArgs)
  (evs : list Event) (res : Response) :
  req settings requests a = Some (evs, Return res) ->
  truthy res = true
  /\ status_code res < 400
  /\ (1 <= attempts evs)%nat
  /\ Z.of_nat (attempts evs) <= retries a
  /\ requester requests a (the_call a) (attempts evs - 1) = Returned res
  /\ (forall i, (i < attempts evs - 1)%nat ->
                transient (requester requests a (the_call a) i) = true).
Proof.
  unfold req. intros H.
  destruct (req_loop_result settings requests a _ _ _ _ _ H)
    as (Hall & Ht & Hs & H1 & Hc & Hreq & _ & _).
  simpl in Hreq.
  split; [assumption|]. split; [assumption|]. split; [assumption|].
  split; [lia|]. split; [assumption|].
  intros i Hi. apply Hall. lia.
Qed.

Lemma req_only_returns_good_responses_witness :
  let evs := match req demo_settings recovering_server (demo_args 3) with
             | Some (evs, _) => evs
             | None => []
             end in
  let res := response true 200 "ok" in
  truthy res = true
  /\ status_code res < 400
  /\ (1 <= attempts evs)%nat
  /\ Z.of_nat (attempts evs) <= retries (demo_args 3)
  /\ requester recovering_server (demo_args 3) (the_call (demo_args 3))
       (attempts evs - 1) = Returned res
  /\ (forall i, (i < attempts evs - 1)%nat ->
                transient (requester recovering_server (demo_args 3)
                             (the_call (demo_args 3)) i) = true).
Proof.
  apply (req_only_returns_good_responses demo_settings recovering_server
           (demo_args 3)).
  vm_compute. reflexivity.
Defined.

(** X3. When [req] raises, it has made exactly [max(retries, 0)] calls, each
    of them a transient failure; with a retry delay configured it has slept
    it once after every one of them, the last included, and it has never
    slept the per-request delay. *)
Theorem req_raises_only_after_all_retries_fail
  (settings : Settings) (requests : Handler) (a : ReqArgs)
  (evs : list Event) (msg : Text) :
  req settings requests a = Some (evs, RaiseReqException msg) ->
  msg = REQUEST_EXCEPTION_MSG (upper (req_type a)) (url a) (params a)
  /\ Z.of_nat (attempts evs) = Z.max 0 (retries a)
  /\ (forall i, (i < attempts evs)%nat ->
                transient (requester requests a (the_call a) i) = true)
  /\ retry_sleeps evs
     = (attempts evs * configured (REQUEST_RETRY_DELAY settings))%nat
  /\ per_request_sleeps evs = 0%nat.
Proof.
  unfold req. intros H.
  destruct (req_loop_result settings requests a _ _ _ _ _ H)
    as (Hall & Hm & Hc & Hlast & Hr & Hp).
  simpl in Hlast.
  split; [assumption|]. split; [lia|]. split; [|split; assumption].
  intros i Hi. destruct (Nat.eq_dec i (attempts evs - 1)) as [->|Hne].
  - destruct Hlast as [H0|Hl]; [lia | assumption].
  - apply Hall. lia.
Qed.

Lemma req_raises_only_after_all_retries_fail_witness :
  let evs := match req demo_settings failing_server (demo_args 4) with
             | Some (evs, _) => evs
             | None => []
             end in
  REQUEST_EXCEPTION_MSG "GET" "https://www.pixiv.net/ranking.php"
    (Some [("mode", "daily")])
  = REQUEST_EXCEPTION_MSG (upper "get") "https://www.pixiv.net/ranking.php"
      (Some [("mode", "daily")])
  /\ Z.of_nat (attempts evs) = Z.max 0 4
  /\ (forall i, (i < attempts evs)%nat ->
                transient (requester failing_server (demo_args 4)
                             (the_call (demo_args 4)) i) = true)
  /\ retry_sleeps evs = (attempts evs * configured (Some 3%float))%nat
  /\ per_request_sleeps evs = 0%nat.
Proof.
  apply (req_raises_only_after_all_retries_fail demo_settings failing_server
           (demo_args 4)).
  vm_compute. reflexivity.
Defined.

(** X4. [req] always ends, never makes more than [max(retries, 0)] calls, and
    makes no call at all exactly when [retries] is zero or negative. *)
Theorem req_terminates_within_budget
  (settings : Settings) (requests : Handler) (a : ReqArgs) :
  exists evs out,
    req settings requests a = Some (evs, out)
    /\ Z.of_nat (attempts evs) <= Z.max 0 (retries a)
    /\ (attempts evs = 0%nat <-> retries a <= 0).
Proof.
  unfold req.
  destruct (req_loop_total settings requests a
              (S (Z.to_nat (retries a))) 0 0%nat) as [[evs out] H]; [lia|].
  exists evs, out. split; [exact H|].
  destruct (req_loop_result settings requests a _ _ _ _ _ H) as [_ Hres].
  destruct out as [res|msg].
  - destruct Hres as (_ & _ & H1 & Hc & _). split; [lia|]. split; lia.
  - destruct Hres as (_ & Hc & _). split; [lia|]. split; lia.
Qed.

(** X5. With [log_req] false [req] prints nothing, whatever the network does
    and however the log channels are set. *)
Theorem req_without_log_req_prints_nothing
  (settings : Settings) (requests : Handler) (a : ReqArgs) :
  exists evs out,
    req settings requests (with_log_req false a) = Some (evs, out)
    /\ filter is_print evs = [].
Proof.
  unfold req.
  destruct (req_loop_total settings requests (with_log_req false a)
              (S (Z.to_nat (retries (with_log_req false a)))) 0 0%nat)
    as [[evs out] H]; [lia|].
  exists evs, out. split; [exact H|].
  now apply (req_loop_prints_nothing settings requests (with_log_req false a)
               _ eq_refl _ _ _ _ H).
Qed.

(* ================================================================= *)
(** * Properties of [log] *)

(** X6. [log] writes to the log file exactly when saving is both enabled and
    asked for and the call is not a [normal] one with the normal channel
    enabled; it then writes once, to [LOG_FILE]. *)
Theorem log_saves_iff (s : Settings) (t : Text) (k : LogKw) :
  filter is_file_print (log s t k)
  = when (LOG_SAVE s && save k && negb (LOG_NORMAL s && normal k))
      [print_of (File (LOG_FILE s)) None t k].
Proof.
  unfold log, when, print_of.
  destruct (LOG_NORMAL s), (normal k), (LOG_INFORM s), (inform k), (LOG_SAVE s),
    (save k), (error k), (LOG_WARN s), (warn k), (LOG_STD s); reflexivity.
Qed.

(** X7. With the inform channel disabled [log] prints no line with the
    inform prefix and none with the error prefix either: error lines hang on
    the inform switch. *)
Theorem log_error_lines_need_inform (s : Settings) (t : Text) (k : LogKw) (p : Print) :
  LOG_INFORM s = false ->
  In p (log s t k) ->
  pr_prefix p <> Some ">>>" /\ pr_prefix p <> Some "!!!".
Proof.
  intros Hoff. unfold log, when. rewrite Hoff.
  destruct (LOG_NORMAL s), (normal k), (LOG_SAVE s), (save k),
    (LOG_WARN s), (warn k), (LOG_STD s), (inform k), (error k); simpl;
    intros H; repeat (destruct H as [<-|H]; [split; discriminate|]);
    contradiction.
Qed.

Lemma log_error_lines_need_inform_witness :
  let s := {| LOG_STD := true; LOG_INFORM := false; LOG_SAVE := true;
              LOG_WARN := true; LOG_NORMAL := true; LOG_FILE := "log.txt";
              CLEAR_LINE := EmptyString; DELAY_PER_REQUEST := None;
              REQUEST_RETRY_DELAY := None |} in
  let k := {| kw_end := newline; kw_start := EmptyString; inform := true;
              save := true; error := true; warn := false; normal := false |} in
  let p := print_of (File "log.txt") None DONE k in
  pr_prefix p <> Some ">>>" /\ pr_prefix p <> Some "!!!".
Proof.
  apply (log_error_lines_need_inform
           {| LOG_STD := true; LOG_INFORM := false; LOG_SAVE := true;
              LOG_WARN := true; LOG_NORMAL := true; LOG_FILE := "log.txt";
              CLEAR_LINE := EmptyString; DELAY_PER_REQUEST := None;
              REQUEST_RETRY_DELAY := None |}
           DONE
           {| kw_end := newline; kw_start := EmptyString; inform := true;
              save := true; error := true; warn := false; normal := false |}).
  - reflexivity.
  - simpl. left. reflexivity.
Defined.

(* ================================================================= *)
(** * Further properties of [Printer] *)

Section PrinterRuns.

Variable settings : Settings.

Lemma to_int_no_type_error rnd x : to_int rnd x <> inl TypeError.
Proof. unfold to_int. destruct (Prim2SF x); discriminate. Qed.

Lemma truediv_no_type_error x d : truediv x d <> inl TypeError.
Proof. unfold truediv. destruct (d =? 0); discriminate. Qed.

Lemma percent_done_no_type_error curr total :
  percent_done curr total <> inl TypeError.
Proof.
  unfold percent_done, int_truediv.
  destruct (truediv _ total) as [e|q] eqn:E.
  - intros H. injection H as ->. now apply truediv_no_type_error in E.
  - apply to_int_no_type_error.
Qed.

Lemma rounded_ratio_no_type_error x y : rounded_ratio x y <> inl TypeError.
Proof.
  unfold rounded_ratio, int_truediv.
  destruct (truediv _ y) as [e|q] eqn:E.
  - intros H. injection H as ->. now apply truediv_no_type_error in E.
  - apply to_int_no_type_error.
Qed.

Lemma print_progress_no_type_error p w curr total msg :
  ready p ->
  snd (print_progress settings curr total msg (p, w)) <> inl TypeError.
Proof.
  intros [Hne Hset]. destruct p as [first lp lptl lppt est st lpl].
  simpl in Hne, Hset. unfold_py.
  destruct (percent_done curr total) as [e|pct] eqn:Ep; simpl.
  { intros H. injection H as ->. now apply percent_done_no_type_error in Ep. }
  destruct first; simpl; [discriminate|].
  destruct (Hset eq_refl) as (Hlp & Hlppt & Hst).
  destruct lp as [lp|]; [|contradiction]. destruct lppt as [t0|]; [|contradiction].
  simpl. destruct (lp =? pct); simpl; [discriminate|].
  destruct (truediv _ (pct - lp)) as [e|per] eqn:Ed; simpl.
  { intros H. injection H as ->. now apply truediv_no_type_error in Ed. }
  destruct (rounded_ratio _ _) as [e|chunk] eqn:Er; simpl.
  { intros H. injection H as ->. now apply rounded_ratio_no_type_error in Er. }
  destruct (chunk <? _); [destruct (negb (chunk =? 0))|]; simpl;
    try discriminate;
    (destruct (truediv (sum _) _) as [e|v] eqn:Ec; simpl; [|discriminate];
     intros H; injection H as ->; now apply truediv_no_type_error in Ec).
Qed.

(** On a printer in a state it can reach, [print_done] returns. *)
Lemma print_done_returns_when_ready p w msg :
  ready p -> snd (print_done settings msg (p, w)) = inr tt.
Proof.
  intros [_ Hset]. destruct p as [first lp lptl lppt est st lpl].
  simpl in Hset. unfold_py.
  destruct (nonempty msg); simpl; [reflexivity|].
  destruct first; simpl; [reflexivity|].
  destruct (Hset eq_refl) as (_ & _ & Hst).
  destruct st; [reflexivity | contradiction].
Qed.

Lemma run_no_type_error ops :
  forall p w, ready p -> snd (run settings ops (p, w)) <> inl TypeError.
Proof.
  induction ops as [|o ops IH]; intros p w Hp; simpl; [discriminate|].
  unfold bind.
  pose proof (call_ready settings p w o Hp) as Hp'.
  assert (Ho : snd (call settings o (p, w)) <> inl TypeError).
  { destruct o as [curr total msg|msg]; simpl.
    - now apply print_progress_no_type_error.
    - rewrite print_done_returns_when_ready by assumption. discriminate. }
  destruct (call settings o (p, w)) as [[p' w'] [e|[]]]; simpl in *;
    [exact Ho | now apply IH].
Qed.

(** The lines the two methods hand to [log]. *)
Lemma log_progress_line line :
  log settings line
    (kw_inform (kw_with_start (CLEAR_LINE settings) (kw_with_end EmptyString kw)))
  = when (LOG_INFORM settings)
      [{| pr_sink := Stdout; pr_start := CLEAR_LINE settings;
          pr_prefix := Some ">>>"; pr_objects := line; pr_end := EmptyString |}].
Proof.
  unfold log, when. simpl.
  destruct (LOG_NORMAL settings), (LOG_INFORM settings), (LOG_SAVE settings),
    (LOG_WARN settings), (LOG_STD settings); reflexivity.
Qed.

Lemma log_done_line line :
  log settings line (kw_normal kw)
  = when (LOG_NORMAL settings || LOG_STD settings)
      [{| pr_sink := Stdout; pr_start := EmptyString; pr_prefix := None;
          pr_objects := line; pr_end := newline |}].
Proof.
  unfold log, when. simpl.
  destruct (LOG_NORMAL settings), (LOG_INFORM settings), (LOG_SAVE settings),
    (LOG_WARN settings), (LOG_STD settings); reflexivity.
Qed.

(** A call of [print_progress] that returned has printed the line it
    recorded, and nothing else. *)
Lemma print_progress_output p w curr total msg st :
  print_progress settings curr total msg (p, w) = (st, inr tt) ->
  exists line,
    last_printed_line (fst st) = Some line
    /\ printed (snd st)
       = printed w
         ++ log settings line
              (kw_inform (kw_with_start (CLEAR_LINE settings)
                            (kw_with_end EmptyString kw)))
    /\ clock (snd st) = clock w.
Proof.
  destruct p as [first lp lptl lppt est t lpl]. unfold_py.
  destruct (percent_done curr total) as [e|pct]; simpl; [discriminate|].
  destruct first; simpl.
  { intros H. injection H as <-. simpl. eexists. repeat split. }
  destruct (attr_eq lp pct); simpl.
  { intros H. injection H as <-. simpl. eexists. repeat split. }
  destruct lppt as [t0|]; simpl; [|discriminate].
  destruct lp as [lp|]; simpl; [|discriminate].
  destruct (truediv _ (pct - lp)) as [e|per]; simpl; [discriminate|].
  destruct (rounded_ratio _ _) as [e|chunk]; simpl; [discriminate|].
  destruct (chunk <? _); [destruct (negb (chunk =? 0))|]; simpl;
    try (destruct (truediv _ _) as [e|v]; simpl; [discriminate|]);
    intros H; injection H as <-; simpl; eexists; repeat split.
Qed.

(** The start time is written by the first call of an operation only, and
    no call changes the clock itself. *)
Lemma print_progress_start_time p w curr total msg :
  let st := fst (print_progress settings curr total msg (p, w)) in
  clock (snd st) = clock w
  /\ (is_first_print p = false ->
      is_first_print (fst st) = false /\ start_time (fst st) = start_time p)
  /\ (is_first_print p = true ->
      snd (print_progress settings curr total msg (p, w)) = inr tt ->
      is_first_print (fst st) = false
      /\ start_time (fst st) = Some (clock w (S (reads w)))).
Proof.
  destruct p as [first lp lptl lppt est t lpl]. unfold_py. cbv zeta.
  destruct (percent_done curr total) as [e|pct]; simpl.
  { repeat split; auto; intros; discriminate. }
  destruct first; simpl.
  { repeat split; auto; intros; discriminate. }
  destruct (attr_eq lp pct); simpl.
  { repeat split; auto; intros; discriminate. }
  destruct lppt as [t0|]; simpl; [|repeat split; auto; intros; discriminate].
  destruct lp as [lp|]; simpl; [|repeat split; auto; intros; discriminate].
  destruct (truediv _ (pct - lp)) as [e|per]; simpl;
    [repeat split; auto; intros; discriminate|].
  destruct (rounded_ratio _ _) as [e|chunk]; simpl;
    [repeat split; auto; intros; discriminate|].
  destruct (chunk <? _); [destruct (negb (chunk =? 0))|]; simpl;
    try (destruct (truediv _ _) as [e|v]; simpl);
    repeat split; auto; intros; discriminate.
Qed.

End PrinterRuns.

(** X8. On a printer in any state it can reach, [print_done] returns,
    whatever its message, and leaves the reset printer; it never fails for
    want of a start time. *)
Theorem print_done_returns_and_resets
  (settings : Settings) (p : Printer) (w : World) (msg : option string) :
  reachable settings p ->
  snd (print_done settings msg (p, w)) = inr tt
  /\ fst (fst (print_done settings msg (p, w))) = reset_printer.
Proof.
  intros Hreach.
  pose proof (print_done_returns_when_ready settings p w msg
                (reachable_ready settings p Hreach)) as Hret.
  split; [exact Hret | now apply print_done_resets].
Qed.

Lemma print_done_returns_and_resets_witness :
  snd (print_done demo_settings None (started 10 100)) = inr tt
  /\ fst (fst (print_done demo_settings None (started 10 100))) = reset_printer.
Proof.
  apply (print_done_returns_and_resets demo_settings (fst (started 10 100))
           (snd (started 10 100)) None).
  exact (reach_call demo_settings init demo_world (Progress 10 100 None)
           (reach_init demo_settings)).
Defined.

(** X9. No sequence of calls on a printer in a state it can reach raises
    [TypeError]: an attribute that is still [None] is never used in
    arithmetic. *)
Theorem printer_never_raises_type_error
  (settings : Settings) (p : Printer) (w : World) (ops : list Op) :
  reachable settings p ->
  snd (run settings ops (p, w)) <> inl TypeError.
Proof.
  intros Hreach. apply run_no_type_error. now apply (reachable_ready settings).
Qed.

Lemma printer_never_raises_type_error_witness :
  snd (run demo_settings
         [Progress 3 7 None; Done None; Done (Some "bye"); Progress 5 7 None]
         (init, demo_world)) <> inl TypeError.
Proof.
  apply (printer_never_raises_type_error demo_settings init demo_world
           [Progress 3 7 None; Done None; Done (Some "bye"); Progress 5 7 None]).
  exact (reach_init demo_settings).
Defined.

(** X10. A second [print_done] right after one that returned returns too,
    leaves the printer as the first left it, does not read the clock, and
    prints the message form or the plain done form, never a time taken. *)
Theorem print_done_twice
  (settings : Settings) (p : Printer) (w : World) (m1 m2 : option string) :
  snd (print_done settings m1 (p, w)) = inr tt ->
  let st1 := fst (print_done settings m1 (p, w)) in
  print_done settings m2 st1
  = ((fst st1,
      advance (snd st1) 0
        (log settings
           (if nonempty m2 then DONE_MSG (string_of m2) else DONE)
           (kw_normal kw))),
     inr tt).
Proof.
  intros Hret. cbv zeta.
  pose proof (print_done_resets settings p w m1 Hret) as Hreset.
  destruct (print_done settings m1 (p, w)) as [[p1 w1] r]. simpl in *.
  subst p1. unfold_py. unfold advance.
  destruct (nonempty m2); reflexivity.
Qed.

Lemma print_done_twice_witness :
  let st1 := fst (print_done demo_settings None (started 10 100)) in
  print_done demo_settings (Some "all saved") st1
  = ((fst st1,
      advance (snd st1) 0
        (log demo_settings
           (if nonempty (Some "all saved")
            then DONE_MSG (string_of (Some "all saved")) else DONE)
           (kw_normal kw))),
     inr tt).
Proof.
  apply (print_done_twice demo_settings (fst (started 10 100))
           (snd (started 10 100)) None (Some "all saved")).
  vm_compute. reflexivity.
Defined.

(** X11. A [print_progress] call that returns prints the line it stores in
    [last_printed_line] once on the inform channel (with the clear-line
    start and no line end) when that channel is enabled, and nothing at all
    when it is disabled; the state is updated either way. *)
Theorem print_progress_prints_recorded_line
  (settings : Settings) (p : Printer) (w : World)
  (curr total : Z) (msg : option string) (st : Printer * World) :
  print_progress settings curr total msg (p, w) = (st, inr tt) ->
  exists line,
    last_printed_line (fst st) = Some line
    /\ printed (snd st)
       = printed w ++ when (LOG_INFORM settings) [inform_line settings line].
Proof.
  intros H.
  destruct (print_progress_output settings p w curr total msg st H)
    as (line & Hline & Hout & _).
  exists line. split; [exact Hline|].
  rewrite Hout, log_progress_line. reflexivity.
Qed.

Lemma print_progress_prints_recorded_line_witness :
  exists line,
    last_printed_line (fst (started 10 100)) = Some line
    /\ printed (snd (started 10 100))
       = printed demo_world
         ++ when (LOG_INFORM demo_settings) [inform_line demo_settings line].
Proof.
  apply (print_progress_prints_recorded_line demo_settings init demo_world
           10 100 None (started 10 100)).
  reflexivity.
Defined.

Section Elapsed.

Variable settings : Settings.

(** Progress calls after the first of an operation leave the start time and
    the clock alone. *)
Lemma run_progress_keeps_start ops :
  forallb is_progress ops = true ->
  forall p w,
    is_first_print p = false ->
    is_first_print (fst (fst (run settings ops (p, w)))) = false
    /\ start_time (fst (fst (run settings ops (p, w)))) = start_time p
    /\ clock (snd (fst (run settings ops (p, w)))) = clock w.
Proof.
  induction ops as [|o ops IH]; intros Hall p w Hfirst; simpl in *; [auto|].
  apply andb_prop in Hall as [Ho Hops].
  destruct o as [curr total msg|msg]; [|discriminate]. simpl. unfold bind.
  pose proof (print_progress_start_time settings p w curr total msg)
    as (Hclock & Hkeep & _).
  destruct (Hkeep Hfirst) as [Hf Hs].
  destruct (print_progress settings curr total msg (p, w)) as [[p' w'] [e|[]]];
    simpl in *; [auto|].
  destruct (IH Hops p' w' Hf) as (H1 & H2 & H3).
  rewrite H1, H2, H3. auto.
Qed.

End Elapsed.

(** X12. The time [print_done()] reports is counted from the first
    [print_progress] of the operation: after a first call on a fresh or reset
    printer and any further progress calls, all returning, [print_done]
    without message reads the clock once and prints, on the normal channel
    (or the standard one when that is disabled), the time taken as that
    reading minus the second clock reading of the first call. *)
Theorem print_done_reports_time_since_first_progress
  (settings : Settings) (p : Printer) (w : World)
  (curr total : Z) (msg : option string) (ops : list Op)
  (st : Printer * World) :
  is_first_print p = true ->
  forallb is_progress ops = true ->
  run settings (Progress curr total msg :: ops) (p, w) = (st, inr tt) ->
  print_done settings None st
  = ((reset_printer,
      advance (snd st) 1
        (when (LOG_NORMAL settings || LOG_STD settings)
           [plain_line
              (DONE_TIME_TAKEN
                 (clock w (reads (snd st)) - clock w (S (reads w)))%float)])),
     inr tt).
Proof.
  intros Hfirst Hall. simpl. unfold bind.
  pose proof (print_progress_start_time settings p w curr total msg)
    as (Hclock & _ & Hset).
  destruct (print_progress settings curr total msg (p, w)) as [[p1 w1] [e|[]]];
    simpl in *; [discriminate|].
  destruct (Hset Hfirst eq_refl) as [Hf1 Hs1].
  pose proof (run_progress_keeps_start settings ops Hall p1 w1 Hf1)
    as (Hf & Hs & Hc).
  intros Hrun. rewrite Hrun in Hf, Hs, Hc. simpl in Hf, Hs, Hc.
  rewrite Hs1 in Hs.
  destruct st as [[first lp lptl lppt est t lpl] w2]. simpl in *.
  subst first t. unfold_py. cbv [nonempty is_first_print start_time].
  rewrite !(log_done_line settings).
  unfold advance, plain_line, reset_printer. simpl.
  rewrite Hc, Hclock. reflexivity.
Qed.

Lemma print_done_reports_time_since_first_progress_witness :
  let st := fst (run demo_settings
                   [Progress 0 100 None; Progress 50 100 None; Progress 100 100 None]
                   (init, table_world)) in
  print_done demo_settings None st
  = ((reset_printer,
      advance (snd st) 1
        (when (LOG_NORMAL demo_settings || LOG_STD demo_settings)
           [plain_line
              (DONE_TIME_TAKEN
                 (clock table_world (reads (snd st))
                  - clock table_world (S (reads table_world)))%float)])),
     inr tt).
Proof.
  apply (print_done_reports_time_since_first_progress demo_settings init table_world
           0 100 None [Progress 50 100 None; Progress 100 100 None]).
  - reflexivity.
  - reflexivity.
  - vm_compute. reflexivity.
Defined.

(* ================================================================= *)
(** * The percent and the estimate in floating point *)

Lemma in_upto (n : nat) (z : Z) : 0 <= z <= Z.of_nat n -> In z (upto n).
Proof.
  intros Hz. unfold upto. apply in_map_iff. exists (Z.to_nat z).
  split; [lia|]. apply in_seq. lia.
Qed.

Lemma in_tl_upto (n : nat) (z : Z) : 1 <= z <= Z.of_nat n -> In z (tl (upto n)).
Proof.
  intros Hz. unfold upto. simpl. apply in_map_iff. exists (Z.to_nat z).
  split; [lia|]. apply in_seq. lia.
Qed.

Lemma zero_ratio_up_to_100 : forallb zero_ratio (tl (upto 100)) = true.
Proof. vm_compute. reflexivity. Qed.

Lemma rounded_ratio_zero_left (d : Z) :
  1 <= d <= 100 -> rounded_ratio 0 d = inr 0.
Proof.
  intros Hd.
  pose proof (proj1 (forallb_forall _ _) zero_ratio_up_to_100 d
                (in_tl_upto 100 d Hd)) as H.
  unfold zero_ratio in H.
  destruct (rounded_ratio 0 d) as [e|[|q|q]]; [discriminate | reflexivity
    | discriminate | discriminate].
Qed.

(** X13. When an advancing call reaches 100 percent from a previous percent
    in [0 .. 99], the estimate is exactly [0.0] and the line printed has no
    time-left part, whatever the clock says and whatever the window holds. *)
Theorem reaching_100_percent_reports_zero
  (settings : Settings) (p : Printer) (w : World)
  (curr total : Z) (msg : option string) (lp : Z) :
  reachable settings p ->
  is_first_print p = false ->
  last_percent p = Some lp ->
  0 <= lp < 100 ->
  percent_done curr total = inr 100 ->
  exists st,
    print_progress settings curr total msg (p, w) = (st, inr tt)
    /\ last_percent (fst st) = Some 100
    /\ last_percent_time_left (fst st) = Some 0%float
    /\ last_printed_line (fst st)
       = Some (if nonempty msg
               then WITH_MSG (PROGRESS_TEXT curr total 100) (string_of msg)
               else PROGRESS_TEXT curr total 100).
Proof.
  intros Hreach Hfirst Hlp Hrange Hpct.
  destruct (reachable_ready settings p Hreach) as [Hne Hset].
  destruct (Hset Hfirst) as (_ & Hlppt & _).
  destruct p as [first last lptl lppt est t lpl]. simpl in *.
  subst first last. destruct lppt as [t0|]; [|contradiction].
  unfold_py. rewrite Hpct. step_py.
  destruct (Z.eqb_spec lp 100) as [Heq|_]; [lia|].
  rewrite truediv_nonzero by lia. step_py.
  change (100 - 100) with 0.
  rewrite rounded_ratio_zero_left by lia. step_py.
  rewrite slice_from_1.
  match goal with
  | |- context [0 <? len ?x] =>
      assert (Hlen : 0 < len x)
        by (unfold len; rewrite length_tl_app;
            destruct est; [contradiction | simpl; lia]);
      destruct (Z.ltb_spec 0 (len x)) as [_|Hge]; [|lia]
  end.
  simpl. eexists. split; [reflexivity|]. simpl.
  split; [reflexivity|]. split; [reflexivity|].
  unfold progress_line. simpl. reflexivity.
Qed.

Lemma reaching_100_percent_reports_zero_witness :
  exists st,
    print_progress demo_settings 100 100 None (started 50 100) = (st, inr tt)
    /\ last_percent (fst st) = Some 100
    /\ last_percent_time_left (fst st) = Some 0%float
    /\ last_printed_line (fst st)
       = Some (if nonempty None
               then WITH_MSG (PROGRESS_TEXT 100 100 100) (string_of None)
               else PROGRESS_TEXT 100 100 100).
Proof.
  apply (reaching_100_percent_reports_zero demo_settings (fst (started 50 100))
           (snd (started 50 100)) 100 100 None 50).
  - exact (reach_call demo_settings init demo_world (Progress 50 100 None)
             (reach_init demo_settings)).
  - reflexivity.
  - vm_compute. reflexivity.
  - lia.
  - vm_compute. reflexivity.
Defined.

(** Every total up to 200, every count up to the total: checked by running
    the code. *)
Lemma percents_checked_200 :
  forallb (fun total =>
             forallb (fun curr => percent_accurate curr total)
               (upto (Z.to_nat total))
             && forallb (percent_step total) (upto (Z.to_nat total - 1)))
    (tl (upto 200)) = true.
Proof. vm_compute. reflexivity. Qed.

Lemma percent_checks (curr total : Z) :
  0 < total <= 200 ->
  (0 <= curr <= total -> percent_accurate curr total = true)
  /\ (0 <= curr < total -> percent_step total curr = true).
Proof.
  intros Ht.
  assert (Hin : In total (tl (upto 200))) by (apply in_tl_upto; lia).
  pose proof percents_checked_200 as H.
  rewrite forallb_forall in H. specialize (H total Hin).
  apply andb_prop in H as [Hacc Hstep].
  rewrite forallb_forall in Hacc, Hstep.
  split; intros Hc.
  - apply Hacc. apply in_upto. lia.
  - apply Hstep. apply in_upto. lia.
Qed.

(** X14. For [0 <= curr <= total <= 200] the percent computed in floating
    point is defined, lies between 0 and 100, is 0 at [curr = 0] and 100 at
    [curr = total], and is the exact [floor(100 * curr / total)] or one less
    (the product [curr / total * 100] can fall just short of an integer). *)
Theorem percent_done_accuracy (curr total : Z) :
  0 <= curr <= total ->
  0 < total <= 200 ->
  exists p,
    percent_done curr total = inr p
    /\ 0 <= p <= 100
    /\ (p = 100 * curr / total \/ p = 100 * curr / total - 1)
    /\ (curr = 0 -> p = 0)
    /\ (curr = total -> p = 100).
Proof.
  intros Hc Ht.
  pose proof (proj1 (percent_checks curr total Ht) Hc) as H.
  unfold percent_accurate in H.
  destruct (percent_done curr total) as [e|p]; [discriminate|].
  exists p. split; [reflexivity|].
  apply andb_prop in H as [H H0]. apply andb_prop in H as [H Ht'].
  apply andb_prop in H as [H H100]. apply andb_prop in H as [H Hlo].
  apply orb_prop in H.
  split; [lia|]. split; [lia|]. split.
  - intros Hz. rewrite (proj2 (Z.eqb_eq curr 0) Hz) in H0.
    apply Z.eqb_eq. exact H0.
  - intros Hz. rewrite (proj2 (Z.eqb_eq curr total) Hz) in Ht'.
    apply Z.eqb_eq. exact Ht'.
Qed.

Lemma percent_done_accuracy_witness :
  exists p,
    percent_done 29 100 = inr p
    /\ 0 <= p <= 100
    /\ (p = 100 * 29 / 100 \/ p = 100 * 29 / 100 - 1)
    /\ (29 = 0 -> p = 0)
    /\ (29 = 100 -> p = 100).
Proof.
  apply (percent_done_accuracy 29 100); lia.
Defined.

(** X15. For totals up to 200 the percent never goes down when the count
    goes up: [0 <= c1 <= c2 <= total] gives percents [p1 <= p2]. *)
Theorem percent_done_monotone (c1 c2 total p1 p2 : Z) :
  0 <= c1 <= c2 ->
  c2 <= total ->
  0 < total <= 200 ->
  percent_done c1 total = inr p1 ->
  percent_done c2 total = inr p2 ->
  p1 <= p2.
Proof.
  intros Hc1 Hc2 Ht H1.
  assert (Hgen : forall n c p,
             c = c1 + Z.of_nat n -> c <= total ->
             percent_done c total = inr p -> p1 <= p).
  { induction n as [|n IH]; intros c p Hc Hle Hp.
    - replace c with c1 in Hp by lia. rewrite H1 in Hp. injection Hp as ->. lia.
    - pose proof (proj2 (percent_checks (c - 1) total Ht) ltac:(lia)) as Hs.
      unfold percent_step in Hs.
      replace (c - 1 + 1) with c in Hs by lia. rewrite Hp in Hs.
      destruct (percent_done (c - 1) total) as [e|q] eqn:Eq; [discriminate|].
      specialize (IH (c - 1) q ltac:(lia) ltac:(lia) Eq). lia. }
  intros H2. apply (Hgen (Z.to_nat (c2 - c1)) c2 p2); [lia | lia | exact H2].
Qed.

Lemma percent_done_monotone_witness :
  percent_done 29 100 = inr 28 /\ percent_done 30 100 = inr 30 /\ 28 <= 30.
Proof.
  split; [vm_compute; reflexivity|]. split; [vm_compute; reflexivity|].
  apply (percent_done_monotone 29 30 100 28 30); try lia;
    vm_compute; reflexivity.
Defined.

(* ================================================================= *)
(** * Properties of [trim_to_limit] *)

Lemma slice_to_nonneg {A : Type} (stop : Z) (l : list A) :
  0 <= stop -> slice_to stop l = firstn (Z.to_nat stop) l.
Proof.
  intros H. unfold slice_to. destruct (Z.ltb_spec stop 0); [lia | reflexivity].
Qed.

Lemma len_firstn {A : Type} (n : nat) (l : list A) :
  len (firstn n l) = Z.min (Z.of_nat n) (len l).
Proof. unfold len. rewrite length_firstn. lia. Qed.

Lemma len_nil_iff {A : Type} (l : list A) : len l = 0 <-> l = [].
Proof.
  unfold len. destruct l; simpl; split; intros H;
    [reflexivity | reflexivity | lia | discriminate].
Qed.

Lemma trim_to_limit_firstn {A : Type} (items : list A) (limit : Z) :
  0 < limit ->
  fst (trim_to_limit items (Some limit)) = firstn (Z.to_nat limit) items.
Proof.
  intros Hpos.
  unfold trim_to_limit. destruct items as [|x items]; [now rewrite firstn_nil|].
  cbv [nonempty_list nonzero int_of].
  destruct (Z.eqb_spec limit 0) as [H0|_]; [lia|]. cbv [negb].
  destruct (Z.eqb_spec (len (x :: items)) limit) as [He|Hne]; simpl fst.
  - symmetry. apply firstn_all2. unfold len in He. lia.
  - destruct (Z.gtb_spec (len (x :: items)) limit) as [Hgt|Hle]; simpl fst.
    + apply slice_to_nonneg. lia.
    + symmetry. apply firstn_all2. unfold len in Hle. lia.
Qed.

(** X16. With a positive limit, [trim_to_limit] returns the first [limit]
    items (all of them when there are no more than [limit]), so the result
    has [min(len(items), limit)] items. *)
Theorem trim_to_limit_positive {A : Type} (items : list A) (limit : Z) :
  0 < limit ->
  fst (trim_to_limit items (Some limit)) = firstn (Z.to_nat limit) items
  /\ len (fst (trim_to_limit items (Some limit))) = Z.min (len items) limit.
Proof.
  intros Hpos. rewrite (trim_to_limit_firstn items limit Hpos).
  split; [reflexivity|]. rewrite len_firstn. lia.
Qed.

Lemma trim_to_limit_positive_witness :
  fst (trim_to_limit [1; 2; 3; 4; 5] (Some 3)) = firstn (Z.to_nat 3) [1; 2; 3; 4; 5]
  /\ len (fst (trim_to_limit [1; 2; 3; 4; 5] (Some 3))) = Z.min (len [1; 2; 3; 4; 5]) 3.
Proof.
  apply (trim_to_limit_positive [1; 2; 3; 4; 5] 3). lia.
Defined.

(** X17. Whatever the limit ([None], zero, positive or negative), the list
    [trim_to_limit] returns is a prefix of [items]: it never reorders,
    replaces or adds an item. *)
Theorem trim_to_limit_prefix {A : Type} (items : list A) (limit : option Z) :
  exists rest, items = fst (trim_to_limit items limit) ++ rest.
Proof.
  unfold trim_to_limit.
  destruct (nonempty_list items);
    [|exists []; simpl; now rewrite app_nil_r].
  destruct (nonzero limit); [|exists []; simpl; now rewrite app_nil_r].
  cbv zeta.
  destruct (len items =? int_of limit);
    [exists []; simpl; now rewrite app_nil_r|].
  destruct (len items >? int_of limit);
    [|exists []; simpl; now rewrite app_nil_r].
  simpl fst. unfold slice_to.
  destruct (int_of limit <? 0); eexists; symmetry; apply firstn_skipn.
Qed.

(** X18. With a limit that is [None], zero or positive, trimming twice is
    trimming once. *)
Theorem trim_to_limit_idempotent {A : Type} (items : list A) (limit : option Z) :
  0 <= int_of limit ->
  fst (trim_to_limit (fst (trim_to_limit items limit)) limit)
  = fst (trim_to_limit items limit).
Proof.
  intros Hl. destruct limit as [n|]; simpl in Hl.
  - destruct (Z.eq_dec n 0) as [->|Hn].
    + unfold trim_to_limit. simpl.
      destruct (nonempty_list items); simpl;
        destruct (nonempty_list items); reflexivity.
    + rewrite !trim_to_limit_firstn by lia.
      rewrite firstn_firstn. f_equal. lia.
  - unfold trim_to_limit. simpl.
    destruct (nonempty_list items); simpl;
      destruct (nonempty_list items); reflexivity.
Qed.

Lemma trim_to_limit_idempotent_witness :
  fst (trim_to_limit (fst (trim_to_limit [1; 2; 3; 4; 5] (Some 2))) (Some 2))
  = fst (trim_to_limit [1; 2; 3; 4; 5] (Some 2)).
Proof.
  apply (trim_to_limit_idempotent [1; 2; 3; 4; 5] (Some 2)). simpl. lia.
Defined.

(** X19. A negative limit is taken as a slice bound: a non-empty list loses
    its last [-limit] items (all of them when it has no more), and the
    message logged gives the negative limit as the new length. *)
Theorem trim_to_limit_negative {A : Type} (items : list A) (limit : Z) :
  limit < 0 ->
  items <> [] ->
  fst (trim_to_limit items (Some limit))
  = firstn (Z.to_nat (len items + limit)) items
  /\ len (fst (trim_to_limit items (Some limit))) = Z.max 0 (len items + limit)
  /\ snd (trim_to_limit items (Some limit)) = Some (TRIM_MSG (len items) limit).
Proof.
  intros Hneg Hne. unfold trim_to_limit.
  destruct items as [|x items]; [contradiction|].
  cbv [nonempty_list nonzero int_of].
  destruct (Z.eqb_spec limit 0) as [H0|_]; [lia|]. cbv [negb].
  assert (Hlen : 0 < len (x :: items)) by (unfold len; simpl; lia).
  destruct (Z.eqb_spec (len (x :: items)) limit) as [He|_]; [lia|].
  destruct (Z.gtb_spec (len (x :: items)) limit) as [_|Hle]; [|lia].
  simpl fst. simpl snd. unfold slice_to.
  destruct (Z.ltb_spec limit 0) as [_|Hge]; [|lia].
  assert (Hmax : Z.to_nat (Z.max (len (x :: items) + limit) 0)
                 = Z.to_nat (len (x :: items) + limit)) by lia.
  rewrite Hmax. split; [reflexivity|]. split; [|reflexivity].
  rewrite len_firstn. lia.
Qed.

Lemma trim_to_limit_negative_witness :
  fst (trim_to_limit [1; 2; 3; 4; 5] (Some (-2)))
  = firstn (Z.to_nat (len [1; 2; 3; 4; 5] + -2)) [1; 2; 3; 4; 5]
  /\ len (fst (trim_to_limit [1; 2; 3; 4; 5] (Some (-2))))
     = Z.max 0 (len [1; 2; 3; 4; 5] + -2)
  /\ snd (trim_to_limit [1; 2; 3; 4; 5] (Some (-2)))
     = Some (TRIM_MSG (len [1; 2; 3; 4; 5]) (-2)).
Proof.
  apply (trim_to_limit_negative [1; 2; 3; 4; 5] (-2)); [lia | discriminate].
Defined.

(** X20. With a positive limit the message logged is true to what was done:
    the trim message gives the old length and the length of the list
    returned, the not-needed message goes with an untouched list shorter
    than the limit, and without message the list is returned as it came. *)
Theorem trim_to_limit_message {A : Type} (items : list A) (limit : Z) :
  0 < limit ->
  match snd (trim_to_limit items (Some limit)) with
  | Some (TRIM_MSG old_len new_len) =>
      old_len = len items
      /\ new_len = len (fst (trim_to_limit items (Some limit)))
      /\ new_len < old_len
  | Some (TRIM_NOT_NEEDED l lim) =>
      fst (trim_to_limit items (Some limit)) = items
      /\ l = len items /\ lim = limit /\ 0 < l < lim
  | None =>
      fst (trim_to_limit items (Some limit)) = items
      /\ (items = [] \/ len items = limit)
  end.
Proof.
  intros Hpos. unfold trim_to_limit.
  destruct items as [|x items]; [simpl; auto|].
  cbv [nonempty_list nonzero int_of].
  destruct (Z.eqb_spec limit 0) as [H0|_]; [lia|]. cbv [negb].
  assert (Hlen : 0 < len (x :: items)) by (unfold len; simpl; lia).
  destruct (Z.eqb_spec (len (x :: items)) limit) as [He|Hne]; [simpl; auto|].
  destruct (Z.gtb_spec (len (x :: items)) limit) as [Hgt|Hle]; simpl fst; simpl snd.
  - rewrite slice_to_nonneg by lia. rewrite len_firstn.
    split; [reflexivity|]. split; lia.
  - split; [reflexivity|]. split; [reflexivity|]. split; [reflexivity|]. lia.
Qed.

Lemma trim_to_limit_message_witness :
  match snd (trim_to_limit [1; 2; 3; 4; 5] (Some 3)) with
  | Some (TRIM_MSG old_len new_len) =>
      old_len = len [1; 2; 3; 4; 5]
      /\ new_len = len (fst (trim_to_limit [1; 2; 3; 4; 5] (Some 3)))
      /\ new_len < old_len
  | Some (TRIM_NOT_NEEDED l lim) =>
      fst (trim_to_limit [1; 2; 3; 4; 5] (Some 3)) = [1; 2; 3; 4; 5]
      /\ l = len [1; 2; 3; 4; 5] /\ lim = 3 /\ 0 < l < lim
  | None =>
      fst (trim_to_limit [1; 2; 3; 4; 5] (Some 3)) = [1; 2; 3; 4; 5]
      /\ ([1; 2; 3; 4; 5] = [] \/ len [1; 2; 3; 4; 5] = 3)
  end.
Proof.
  apply (trim_to_limit_message [1; 2; 3; 4; 5] 3). lia.
Defined.

(* ================================================================= *)
(** * Properties of [clean_filename] *)

Lemma chars_clean_filename (s : string) :
  chars (clean_filename s) = filter (fun c => negb (forbidden c)) (chars s).
Proof.
  induction s as [|c s IH]; simpl; [reflexivity|].
  destruct (forbidden c); simpl; now rewrite IH.
Qed.

Lemma chars_injective (s1 s2 : string) : chars s1 = chars s2 -> s1 = s2.
Proof.
  revert s2. induction s1 as [|c s1 IH]; intros [|c2 s2] H; simpl in H;
    try discriminate; [reflexivity|].
  injection H as -> H. f_equal. now apply IH.
Qed.

Lemma length_clean_filename (s : string) :
  (String.length (clean_filename s) <= String.length s)%nat.
Proof.
  induction s as [|c s IH]; simpl; [lia|].
  destruct (forbidden c); simpl; lia.
Qed.

(** X21. The name [clean_filename] returns holds none of the nine characters
    of the pattern. *)
Theorem clean_filename_has_no_forbidden_character (s : string) :
  Forall (fun c => forbidden c = false) (chars (clean_filename s)).
Proof.
  rewrite chars_clean_filename. apply Forall_forall. intros c Hc.
  apply filter_In in Hc as [_ Hc]. now destruct (forbidden c).
Qed.

(** X22. Cleaning a name twice is cleaning it once. *)
Theorem clean_filename_idempotent (s : string) :
  clean_filename (clean_filename s) = clean_filename s.
Proof.
  induction s as [|c s IH]; simpl; [reflexivity|].
  destruct (forbidden c) eqn:E; simpl; [exact IH|].
  rewrite E. now rewrite IH.
Qed.

(** X23. Cleaning goes through concatenation: a name put together from parts
    can be cleaned part by part. *)
Theorem clean_filename_append (s1 s2 : string) :
  clean_filename (s1 ++ s2)%string
  = (clean_filename s1 ++ clean_filename s2)%string.
Proof.
  induction s1 as [|c s1 IH]; simpl; [reflexivity|].
  destruct (forbidden c); simpl; now rewrite IH.
Qed.

(** X24. [clean_filename] returns its argument unchanged exactly when the
    argument holds none of the nine characters; otherwise the result is
    strictly shorter. *)
Theorem clean_filename_unchanged_iff (s : string) :
  (clean_filename s = s <-> Forall (fun c => forbidden c = false) (chars s))
  /\ (clean_filename s <> s ->
      (String.length (clean_filename s) < String.length s)%nat).
Proof.
  induction s as [|c s [IH1 IH2]]; simpl.
  - split; [split; [constructor | reflexivity] | intros H; now elim H].
  - pose proof (length_clean_filename s) as Hlen.
    destruct (forbidden c) eqn:E.
    + split.
      * split.
        -- intros H. apply (f_equal String.length) in H. simpl in H. lia.
        -- intros H. inversion H as [|? ? Hc _]. congruence.
      * intros _. lia.
    + split.
      * split.
        -- intros H. injection H as H. constructor; [exact E | now apply IH1].
        -- intros H. inversion H as [|? ? _ Hs]. f_equal. now apply IH1.
      * intros H. simpl.
        assert (Hne : clean_filename s <> s) by (intros Heq; apply H; now f_equal).
        specialize (IH2 Hne). lia.
Qed.

(** X25. The result is the empty name exactly when every character of the
    argument is one of the nine: such a title leaves no file name at all. *)
Theorem clean_filename_empty_iff (s : string) :
  clean_filename s = EmptyString
  <-> Forall (fun c => forbidden c = true) (chars s).
Proof.
  induction s as [|c s IH]; simpl.
  - split; [constructor | reflexivity].
  - destruct (forbidden c) eqn:E.
    + split.
      * intros H. constructor; [exact E | now apply IH].
      * intros H. inversion H as [|? ? _ Hs]. now apply IH.
    + split.
      * discriminate.
      * intros H. inversion H as [|? ? Hc _]. congruence.
Qed.

(** A title with five of the nine characters in it. *)
Example clean_filename_sample :
  clean_filename "AC/DC: <Back> in Black?" = "ACDC Back in Black".
Proof. reflexivity. Qed.
